(** * TextAI Studio: the access-governance layer of [textai_studio_app.py]

    A shallow embedding of the four helper classes of the application
    ([UserManager], [HistoryManager], [APIKeyManager], [RateLimiter]) and
    the properties of registration, API keys, rate limiting, history and
    analytics that follow from their code.

    Conventions.
    - A Python [dict] is a [gmap]; a Python [list] is a [list].
    - A Python [str] is the [string] of the bytes of its UTF-8 encoding:
      a character of the text is one to four elements of the [string].
      Equality, concatenation and the substring test are the same on
      both; [len] and slicing count characters and are [Py.len] and
      [Py.str_prefix].
    - A method that reads or writes [self] is a computation in the state
      monad [State Self]; the clock ([datetime.now()]) and the random
      sources ([bcrypt.gensalt()], [secrets.token_bytes]) are read by the
      caller and passed in as arguments.
    - A naive [datetime] is the integer number of microseconds it lies
      after 1970-01-01T00:00:00.  The source stores
      [d.isoformat()] and reads it back with [datetime.fromisoformat] (or
      [pd.to_datetime]); for naive datetimes this round trip is the
      identity, so a stored timestamp is modelled by the datetime itself;
      where the text matters ([pd.to_datetime] in [get_analytics]) the
      model looks at the microseconds, which decide its format.
    - A JSON file is modelled by the value last dumped into it, [None]
      while the file does not exist.
    - The file system is a POSIX one that compares file names byte by
      byte. *)

From stdpp Require Import gmap strings list fin_maps pretty.
From Stdlib Require Import Floats Ascii.

Open Scope string_scope.
Open Scope list_scope.
Open Scope Z_scope.

(** ** A small state monad for methods *)

Definition State (S A : Type) : Type := S → A * S.

Global Instance State_ret {S} : MRet (State S) := λ A a s, (a, s).
Global Instance State_bind {S} : MBind (State S) :=
  λ A B f m s, let '(a, s') := m s in f a s'.

Definition get {S} : State S S := λ s, (s, s).
Definition put {S} (s : S) : State S () := λ _, ((), s).
Definition modify {S} (f : S → S) : State S () := λ s, ((), f s).

(** Runs the computations of a list one after the other and collects what
    they return. *)
Fixpoint sequence {S A} (ms : list (State S A)) : State S (list A) :=
  match ms with
  | [] => mret []
  | m :: ms' => a ← m; as' ← sequence ms'; mret (a :: as')
  end.

(** ** Exceptions and outcomes *)

(** The exceptions that calls of the standard library and of pandas
    raise in the code modelled here, by class and argument. *)
Inductive exception : Type :=
| FileNotFoundError (filename : string)    (* open: [Errno 2] *)
| NotADirectoryError (filename : string)   (* open: [Errno 20] *)
| ValueError_null_byte                     (* open: embedded null byte *)
| ValueError_time_data                     (* pd.to_datetime *)
| ValueError_int (literal : string).       (* int: invalid literal *)

(** What a call on files gives.  [Unknown] stands for a call whose effect
    this model does not describe: it reads or writes a file that is not
    part of the state, or libraries differ on it.  The state returned
    with [Unknown] is the state given and says nothing about the files. *)
Inductive outcome (A : Type) : Type :=
| Returns (a : A)
| Raises (e : exception)
| Unknown.
Arguments Returns {A} a.
Arguments Raises {A} e.
Arguments Unknown {A}.

Global Instance outcome_fmap : FMap outcome := λ A B f o,
  match o with
  | Returns a => Returns (f a)
  | Raises e => Raises e
  | Unknown => Unknown
  end.

(** ** Python built-ins used by the source *)

Module Py.

(** [l[start:]]: a negative [start] counts from the end, and the bound is
    clamped to the list. *)
Definition slice_from {A} (start : Z) (l : list A) : list A :=
  let len := Z.of_nat (length l) in
  let i := if bool_decide (start < 0) then Z.max 0 (start + len)
           else Z.min start len in
  drop (Z.to_nat i) l.

(** A byte [10xxxxxx] continues a character; every other byte starts
    one. *)
Definition continuation_byte (a : ascii) : bool :=
  let n := nat_of_ascii a in
  bool_decide (128 ≤ n < 192)%nat.

(** [len(s)] on a [str]: the number of characters. *)
Fixpoint len (s : string) : nat :=
  match s with
  | EmptyString => 0
  | String a s' => if continuation_byte a then len s' else S (len s')
  end.

(** [s[:stop]] on a [str], for a non-negative [stop]: the first [stop]
    characters, each with all its bytes. *)
Fixpoint str_prefix (stop : nat) (s : string) : string :=
  match s with
  | EmptyString => EmptyString
  | String a s' =>
      if continuation_byte a then String a (str_prefix stop s')
      else match stop with
           | O => EmptyString
           | S stop' => String a (str_prefix stop' s')
           end
  end.

(** Whether the text holds the character NUL. *)
Fixpoint has_null (s : string) : bool :=
  match s with
  | EmptyString => false
  | String a s' => bool_decide (a = zero) || has_null s'
  end.

(** [pathlib] on POSIX: the components of a relative path.  The path is
    cut at every "/"; empty components and "." are dropped, ".." is
    kept. *)
Fixpoint split_slash (path : string) : list string :=
  match path with
  | EmptyString => [EmptyString]
  | String a path' =>
      if bool_decide (a = "/"%char) then EmptyString :: split_slash path'
      else match split_slash path' with
           | component :: components => String a component :: components
           | [] => [String a EmptyString]
           end
  end.

Definition parts (path : string) : list string :=
  filter (λ component, component ≠ "" ∧ component ≠ ".") (split_slash path).

Definition is_absolute (path : string) : bool := String.prefix "/" path.

(** [str(n)] and [f"{n}"] for an [int]. *)
Definition str_int (n : Z) : string := pretty n.

(** What the interpreter supplies and the model takes as given: [str(e)],
    the text of an exception, and [int(s)] for a [str], which is [None]
    when [int] raises [ValueError]. *)
Class Interpreter : Type := {
  str : exception → string;
  int : string → option Z
}.

End Py.

(** [needle in haystack] for two strings. *)
Fixpoint contains (needle haystack : string) : bool :=
  String.prefix needle haystack ||
  match haystack with
  | EmptyString => false
  | String _ rest => contains needle rest
  end.

(** ** Time *)

Definition datetime : Type := Z.

Definition timedelta_hours (h : Z) : Z := h * 3600000000.
Definition timedelta_days (d : Z) : Z := d * 86400000000.

(** [t.date()], as the number of the day. *)
Definition date_of (t : datetime) : Z := t `div` 86400000000.

(** ** Rate limiting configuration *)

Definition RATE_LIMITS : gmap string Z :=
  {[ "guest" := 10; "user" := 100; "pro" := 1000 ]}.

(** ** [class RateLimiter] *)

Module RateLimiter.

Record t : Type := mk {
  limits : gmap string (list datetime);
  (** what [rate_limits.json] holds *)
  limits_file : option (gmap string (list datetime))
}.

(** [RateLimiter()]: [__init__] with [_load_limits]. *)
Definition _load_limits (file : option (gmap string (list datetime)))
  : gmap string (list datetime) :=
  match file with Some d => d | None => ∅ end.

Definition init (file : option (gmap string (list datetime))) : t :=
  {| limits := _load_limits file; limits_file := file |}.

Definition _save_limits (self : t) : t :=
  {| limits := limits self; limits_file := Some (limits self) |}.

(** [self.limits[username]].  Every read in [check_limit] comes after the
    statement that creates the key, and no code removes one, so the
    [KeyError] of a missing key cannot happen there. *)
Definition window (self : t) (username : string) : list datetime :=
  default [] (limits self !! username).

Definition set_window (username : string) (w : list datetime) (self : t) : t :=
  {| limits := <[username := w]> (limits self);
     limits_file := limits_file self |}.

(** [RATE_LIMITS.get(tier, 10)] *)
Definition limit_of (tier : string) : Z := default 10 (RATE_LIMITS !! tier).

(** The statements of [check_limit], one definition each. *)

(** [if username not in self.limits: self.limits[username] = []] *)
Definition ensure_window (username : string) (self : t) : t :=
  if decide (is_Some (limits self !! username)) then self
  else set_window username [] self.

(** [[ts for ts in self.limits[username] if fromisoformat(ts) > hour_ago]] *)
Definition fresh (hour_ago : datetime) (w : list datetime) : list datetime :=
  filter (λ ts, hour_ago < ts) w.

Definition prune (hour_ago : datetime) (username : string) (self : t) : t :=
  set_window username (fresh hour_ago (window self username)) self.

(** [len(self.limits[username]) >= limit] *)
Definition exceeded (username : string) (limit : Z) (self : t) : bool :=
  bool_decide (limit ≤ Z.of_nat (length (window self username))).

(** [self.limits[username].append(now.isoformat())] *)
Definition record_request (now : datetime) (username : string) (self : t) : t :=
  set_window username (window self username ++ [now]) self.

Definition exceeded_message (limit : Z) : string :=
  "Rate limit exceeded. Limit: " +:+ Py.str_int limit +:+ "/hour".

Definition remaining_message (remaining limit : Z) : string :=
  "Remaining: " +:+ Py.str_int remaining +:+ "/" +:+ Py.str_int limit.

Definition check_limit (now : datetime) (username tier : string)
  : State t (bool * string) :=
  let hour_ago := now - timedelta_hours 1 in
  modify (ensure_window username);;
  modify (prune hour_ago username);;
  let limit := limit_of tier in
  self ← get;
  if exceeded username limit self then
    mret (false, exceeded_message limit)
  else
    modify (record_request now username);;
    modify _save_limits;;
    self ← get;
    mret (true,
          remaining_message
            (limit - Z.of_nat (length (window self username))) limit).

(** A request: when it arrives, for whom, and with which tier. *)
Record request : Type := mk_request {
  r_now : datetime;
  r_username : string;
  r_tier : string
}.

Definition serve (r : request) : State t (bool * string) :=
  check_limit (r_now r) (r_username r) (r_tier r).

(** The answers of [n] admitted checks in a row when [used] slots of
    [limit] are taken before the first. *)
Fixpoint countdown (limit used : Z) (n : nat) : list (bool * string) :=
  match n with
  | O => []
  | S n' =>
      (true, remaining_message (limit - used - 1) limit)
        :: countdown limit (used + 1) n'
  end.

End RateLimiter.

(** ** External libraries

    [bcrypt], [hashlib] and [base64] are not code of the application; the
    embedding takes their functions as operations of an interface. *)

(** [bcrypt.hashpw(password.encode('utf-8'), salt).decode('utf-8')] and
    [bcrypt.checkpw(password.encode('utf-8'), stored.encode('utf-8'))]. *)
Class Bcrypt : Type := {
  salt : Type;
  hashpw : string → salt → string;
  checkpw : string → string → bool
}.

(** What [bcrypt] documents: a password checks against its own hash. *)
Definition bcrypt_sound `{Bcrypt} : Prop :=
  ∀ password s, checkpw password (hashpw password s) = true.

(** [hashlib.sha256(s.encode()).hexdigest()] and
    [base64.b64encode(bs).decode('utf-8')]. *)
Class Digest : Type := {
  sha256_hexdigest : string → string;
  b64encode : list Byte.byte → string
}.

(** ** [class UserManager] *)

Module Account.
(** The record stored under a username in [users.json]. *)
Record t : Type := mk {
  password : string;
  email : string;
  tier : string;
  created_at : datetime;
  api_key : option string
}.
End Account.

Module UserManager.

Record t : Type := mk {
  users : gmap string Account.t;
  (** what [users.json] holds *)
  users_file : option (gmap string Account.t)
}.

Definition _load_users (file : option (gmap string Account.t))
  : gmap string Account.t :=
  match file with Some d => d | None => ∅ end.

Definition init (file : option (gmap string Account.t)) : t :=
  {| users := _load_users file; users_file := file |}.

Definition _save_users (self : t) : t :=
  {| users := users self; users_file := Some (users self) |}.

Definition set_user (username : string) (a : Account.t) (self : t) : t :=
  {| users := <[username := a]> (users self);
     users_file := users_file self |}.

Definition register_user `{Bcrypt} (gensalt : salt) (now : datetime)
    (username password email : string) : State t (bool * string) :=
  self ← get;
  if decide (is_Some (users self !! username)) then
    mret (false, "Username already exists")
  else
    let hashed := hashpw password gensalt in
    modify (set_user username
              {| Account.password := hashed;
                 Account.email := email;
                 Account.tier := "user";
                 Account.created_at := now;
                 Account.api_key := None |});;
    modify _save_users;;
    mret (true, "Registration successful").

Definition authenticate_user `{Bcrypt} (username password : string)
  : State t bool :=
  self ← get;
  match users self !! username with
  | None => mret false
  | Some account =>
      let stored_hash := Account.password account in
      mret (checkpw password stored_hash)
  end.

Definition get_user (username : string) : State t (option Account.t) :=
  self ← get;
  mret (users self !! username).

End UserManager.

(** ** [class HistoryManager] *)

Module HistoryEntry.
Record t : Type := mk {
  timestamp : datetime;
  tool : string;
  query : string;
  result : string
}.
End HistoryEntry.

(** [df[column].value_counts().to_dict()] and
    [df.groupby(column).size().to_dict()]: how often each value occurs. *)
Definition value_counts `{Countable K} (l : list K) : gmap K nat :=
  foldr (λ k counts, <[k := S (default 0%nat (counts !! k))]> counts) ∅ l.

(** The sum of the values of a dictionary of counts. *)
Definition total_count `{Countable K} (counts : gmap K nat) : nat :=
  map_fold (λ _ n acc, (n + acc)%nat) 0%nat counts.

Module Analytics.
Record t : Type := mk {
  total_queries : nat;
  tools_used : gmap string nat;
  queries_by_date : gmap Z nat;
  last_7_days : nat;
  last_30_days : nat
}.
End Analytics.

(** [d.isoformat()] writes the microseconds only when they are not
    zero: 'YYYY-MM-DDTHH:MM:SS.ffffff', and 'YYYY-MM-DDTHH:MM:SS' on a
    whole second. *)
Definition isoformat_has_fraction (d : datetime) : bool :=
  bool_decide (d `mod` 1000000 ≠ 0).

(** The last microsecond a [pd.Timestamp] of nanosecond resolution
    reaches; the first is its negative. *)
Definition Timestamp_max : Z := 9223372036854775.

(** [pd.to_datetime(df['timestamp'])] on a column of [isoformat] texts,
    with pandas 2 and later: the format is taken from the first text and
    every text must have it, so a column that mixes whole seconds with
    other times raises [ValueError].  On times beyond the nanosecond
    range the releases of pandas differ. *)
Definition to_datetime (column : list datetime) : outcome (list datetime) :=
  match column with
  | [] => Returns []
  | first :: _ =>
      if forallb (λ d, bool_decide (- Timestamp_max ≤ d ≤ Timestamp_max))
           column
      then
        if forallb (λ d, bool_decide (isoformat_has_fraction d
                                      = isoformat_has_fraction first))
             column
        then Returns column
        else Raises ValueError_time_data
      else Unknown
  end.

Module HistoryManager.

(** The manager holds only the path [history_dir]; its state is that
    directory: the list each of its files holds, by file name.  The
    directory holds files only: the program creates no directory in
    it. *)
Abbreviation t := (gmap string (list HistoryEntry.t)).

Definition HISTORY_DIR : string := "user_data/history".

(** Where the path [self.history_dir / f"{username}.json"] leads.  The
    username is not checked anywhere, so the path need not name a file
    of the directory. *)
Inductive place : Type :=
| file_of (name : string)       (* the file [name] of the directory *)
| under (subdirectory : string) (* a file below [subdirectory] of it *)
| null_byte                     (* no file: the path holds a NUL *)
| outside.                      (* a file the state does not hold *)

(** [pathlib] drops "." and empty components, so "./ann" and "ann" lead
    to the same file.  An absolute name replaces the directory, and a
    path that starts with ".." leaves it: both are [outside], and so is
    a name of more than 255 bytes, which file systems refuse. *)
Definition history_file (username : string) : place :=
  let name := username +:+ ".json" in
  if Py.has_null name then null_byte
  else if bool_decide (255 < String.length name)%nat then outside
  else if Py.is_absolute name then outside
  else
    match Py.parts name with
    | [file] => file_of file
    | subdirectory :: _ =>
        if bool_decide (subdirectory = "..") then outside
        else under subdirectory
    | [] => outside
    end.

(** [str(history_file)], for a path that stays in the directory. *)
Definition path_text (username : string) : string :=
  HISTORY_DIR +:+ "/" +:+ String.concat "/" (Py.parts (username +:+ ".json")).

(** [open(history_file, 'w')] below a subdirectory: the directory holds
    no directories, so the subdirectory is missing or is a file. *)
Definition open_error (dir : t) (subdirectory username : string)
  : exception :=
  match dir !! subdirectory with
  | Some _ => NotADirectoryError (path_text username)
  | None => FileNotFoundError (path_text username)
  end.

(** The [result] argument is the text [str(result)] of the object the
    caller passes.  [history_file.exists()] is [False] for a path below
    a subdirectory and for one with a NUL. *)
Definition add_entry (now : datetime) (username tool query result : string)
  : State t (outcome ()) :=
  dir ← get (S := t);
  let entry :=
    {| HistoryEntry.timestamp := now;
       HistoryEntry.tool := tool;
       HistoryEntry.query := Py.str_prefix 200 query;
       HistoryEntry.result := Py.str_prefix 500 result |} in
  match history_file username with
  | file_of name =>
      let history :=
        match dir !! name with
        | Some stored => stored
        | None => []
        end in
      let history := history ++ [entry] in
      let history := Py.slice_from (-100) history in
      put (<[name := history]> dir);;
      mret (Returns ())
  | under subdirectory => mret (Raises (open_error dir subdirectory username))
  | null_byte => mret (Raises ValueError_null_byte)
  | outside => mret Unknown
  end.

Definition get_history (username : string) (limit : Z)
  : State t (outcome (list HistoryEntry.t)) :=
  dir ← get (S := t);
  match history_file username with
  | file_of name =>
      match dir !! name with
      | None => mret (Returns [])
      | Some history => mret (Returns (Py.slice_from (- limit) history))
      end
  | under _ | null_byte => mret (Returns [])
  | outside => mret Unknown
  end.

(** [datetime.now()] is read twice, once for each of the last two
    fields. *)
Definition get_analytics (week_now month_now : datetime) (username : string)
  : State t (outcome (option Analytics.t)) :=
  history ← get_history username 1000;
  match history with
  | Returns [] => mret (Returns None)
  | Returns ((_ :: _) as df) =>
      match to_datetime (HistoryEntry.timestamp <$> df) with
      | Returns timestamp =>
          let newer_than (d : datetime) := filter (λ ts, d < ts) timestamp in
          mret (Returns (Some
            {| Analytics.total_queries := length df;
               Analytics.tools_used := value_counts (HistoryEntry.tool <$> df);
               Analytics.queries_by_date := value_counts (date_of <$> timestamp);
               Analytics.last_7_days :=
                 length (newer_than (week_now - timedelta_days 7));
               Analytics.last_30_days :=
                 length (newer_than (month_now - timedelta_days 30)) |}))
      | Raises e => mret (Raises e)
      | Unknown => mret Unknown
      end
  | Raises e => mret (Raises e)
  | Unknown => mret Unknown
  end.

(** One call of [add_entry]. *)
Record call : Type := mk_call {
  c_now : datetime;
  c_username : string;
  c_tool : string;
  c_query : string;
  c_result : string
}.

Definition append (c : call) : State t (outcome ()) :=
  add_entry (c_now c) (c_username c) (c_tool c) (c_query c) (c_result c).

(** The entry a call stores. *)
Definition entry_of (c : call) : HistoryEntry.t :=
  {| HistoryEntry.timestamp := c_now c;
     HistoryEntry.tool := c_tool c;
     HistoryEntry.query := Py.str_prefix 200 (c_query c);
     HistoryEntry.result := Py.str_prefix 500 (c_result c) |}.

(** The name of the file of the directory that a username leads to, if
    it leads to one. *)
Definition file_name (username : string) : option string :=
  match history_file username with
  | file_of name => Some name
  | _ => None
  end.

(** The entries a sequence of calls appends to one file, in order. *)
Definition appended (calls : list call) (file : string)
  : list HistoryEntry.t :=
  entry_of <$> filter (λ c, file_name (c_username c) = Some file) calls.

(** What a file of the directory holds, the empty list when there is
    none. *)
Definition held (dir : t) (file : string) : list HistoryEntry.t :=
  default [] (dir !! file).

(** The history of a user as the directory has it. *)
Definition stored (dir : t) (username : string)
  : outcome (list HistoryEntry.t) :=
  match history_file username with
  | file_of name => Returns (held dir name)
  | under _ | null_byte => Returns []
  | outside => Unknown
  end.

End HistoryManager.

(** ** [class APIKeyManager] *)

Module KeyRecord.
Record t : Type := mk {
  username : string;
  created_at : datetime
}.
End KeyRecord.

Module APIKeyManager.

Record t : Type := mk {
  keys : gmap string KeyRecord.t;
  (** what [api_keys.json] holds *)
  api_keys_file : option (gmap string KeyRecord.t)
}.

Definition _load_keys (file : option (gmap string KeyRecord.t))
  : gmap string KeyRecord.t :=
  match file with Some d => d | None => ∅ end.

Definition init (file : option (gmap string KeyRecord.t)) : t :=
  {| keys := _load_keys file; api_keys_file := file |}.

Definition _save_keys (self : t) : t :=
  {| keys := keys self; api_keys_file := Some (keys self) |}.

Definition set_key (key_hash : string) (r : KeyRecord.t) (self : t) : t :=
  {| keys := <[key_hash := r]> (keys self);
     api_keys_file := api_keys_file self |}.

(** ['sk_' + base64.b64encode(random_bytes).decode('utf-8')] *)
Definition format_key `{Digest} (random_bytes : list Byte.byte) : string :=
  "sk_" +:+ b64encode random_bytes.

Definition generate_key `{Digest} (token_bytes : list Byte.byte)
    (now : datetime) (username : string) : State t string :=
  let random_bytes := token_bytes in
  let api_key := format_key random_bytes in
  let key_hash := sha256_hexdigest api_key in
  modify (set_key key_hash
            {| KeyRecord.username := username;
               KeyRecord.created_at := now |});;
  modify _save_keys;;
  mret api_key.

Definition validate_key `{Digest} (api_key : string) : State t bool :=
  let key_hash := sha256_hexdigest api_key in
  self ← get;
  mret (bool_decide (is_Some (keys self !! key_hash))).

Definition get_user_by_key `{Digest} (api_key : string)
  : State t (option string) :=
  let key_hash := sha256_hexdigest api_key in
  self ← get;
  match keys self !! key_hash with
  | Some r => mret (Some (KeyRecord.username r))
  | None => mret None
  end.

(** One call of [generate_key]. *)
Record issue : Type := mk_issue {
  i_bytes : list Byte.byte;
  i_now : datetime;
  i_username : string
}.

Definition grant `{Digest} (i : issue) : State t string :=
  generate_key (i_bytes i) (i_now i) (i_username i).

End APIKeyManager.

(** ** The state of the application

    One object of each class; a method of one object runs on its own
    component and cannot touch the others. *)

Module App.

Record t : Type := mk {
  user_manager : UserManager.t;
  api_manager : APIKeyManager.t;
  rate_limiter : RateLimiter.t;
  history_dir : HistoryManager.t
}.

Definition on_api_manager {A} (m : State APIKeyManager.t A) : State t A :=
  λ app,
    let '(a, self) := m (api_manager app) in
    (a, {| user_manager := user_manager app;
           api_manager := self;
           rate_limiter := rate_limiter app;
           history_dir := history_dir app |}).

Definition on_history_dir {A} (m : State HistoryManager.t A) : State t A :=
  λ app,
    let '(a, dir) := m (history_dir app) in
    (a, {| user_manager := user_manager app;
           api_manager := api_manager app;
           rate_limiter := rate_limiter app;
           history_dir := dir |}).

End App.

(** ** Threads that share one [RateLimiter]

    [check_limit] takes no lock, so a second thread may run between any two
    of its statements.  A thread is an activation of [check_limit] stopped
    before one of its statements; a step runs that statement on the shared
    object.  Statements are the units here; the interpreter may switch
    threads more often still, so every schedule below can happen. *)

Module Threads.
Import RateLimiter.

Inductive pc : Type :=
| at_ensure           (* if username not in self.limits: ... *)
| at_prune            (* self.limits[username] = [...] *)
| at_compare          (* if len(self.limits[username]) >= limit: *)
| at_record           (* self.limits[username].append(...) *)
| at_save             (* self._save_limits() *)
| at_return           (* return True, f"Remaining: ..." *)
| returned (r : bool * string).

Record thread : Type := mk_thread {
  th_request : request;
  th_pc : pc
}.

Definition goto (th : thread) (l : pc) : thread :=
  {| th_request := th_request th; th_pc := l |}.

(** A call of [check_limit] that has read the clock. *)
Definition call (r : request) : thread :=
  {| th_request := r; th_pc := at_ensure |}.

Definition step (th : thread) (self : t) : thread * t :=
  let now := r_now (th_request th) in
  let username := r_username (th_request th) in
  let limit := limit_of (r_tier (th_request th)) in
  let hour_ago := now - timedelta_hours 1 in
  match th_pc th with
  | at_ensure => (goto th at_prune, ensure_window username self)
  | at_prune => (goto th at_compare, prune hour_ago username self)
  | at_compare =>
      if exceeded username limit self
      then (goto th (returned (false, exceeded_message limit)), self)
      else (goto th at_record, self)
  | at_record => (goto th at_save, record_request now username self)
  | at_save => (goto th at_return, _save_limits self)
  | at_return =>
      (goto th (returned
         (true,
          remaining_message
            (limit - Z.of_nat (length (window self username))) limit)),
       self)
  | returned _ => (th, self)
  end.

(** The threads and the object they share. *)
Record config : Type := mk_config {
  threads : list thread;
  shared : t
}.

(** A schedule names the thread that takes each next step. *)
Definition run_one (i : nat) (c : config) : config :=
  match threads c !! i with
  | None => c
  | Some th =>
      let '(th', self') := step th (shared c) in
      {| threads := <[i := th']> (threads c); shared := self' |}
  end.

Definition run (schedule : list nat) (c : config) : config :=
  foldl (λ c i, run_one i c) c schedule.

(** What thread [i] has returned, if it has. *)
Definition outcome (c : config) (i : nat) : option (bool * string) :=
  match threads c !! i with
  | Some {| th_pc := returned r |} => Some r
  | _ => None
  end.

Definition admitted (c : config) (i : nat) : bool :=
  match outcome c i with
  | Some (true, _) => true
  | _ => false
  end.

(** A call takes at most six steps. *)
Definition whole_call (i : nat) : list nat := replicate 6 i.

(** Two calls for one user and tier, less than an hour apart, meet a
    window with one free slot: it holds [limit - 1] timestamps, all less
    than an hour old for both calls. *)
Definition one_slot_left (self : t) (r1 r2 : request) : Prop :=
  r_username r1 = r_username r2 ∧
  r_tier r1 = r_tier r2 ∧
  r_now r1 - timedelta_hours 1 < r_now r2 ∧
  r_now r2 - timedelta_hours 1 < r_now r1 ∧
  Forall (λ ts, r_now r1 - timedelta_hours 1 < ts ∧
                r_now r2 - timedelta_hours 1 < ts)
    (window self (r_username r1)) ∧
  Z.of_nat (length (window self (r_username r1))) = limit_of (r_tier r1) - 1.

(** The two calls, about to start on the shared object. *)
Definition start (self : t) (r1 r2 : request) : config :=
  {| threads := [call r1; call r2]; shared := self |}.

End Threads.

(** ** Notions the properties are stated with *)

(** The last [n] elements of a list, all of it when it is shorter. *)
Definition last_entries {A} (n : nat) (l : list A) : list A :=
  drop (length l - n) l.

(** How often [x] occurs in [l]. *)
Definition occurrences `{EqDecision A} (x : A) (l : list A) : nat :=
  length (filter (λ y, y = x) l).

(** Two different strings with the same SHA-256 digest. *)
Definition collide `{Digest} (k k' : string) : Prop :=
  k ≠ k' ∧ sha256_hexdigest k = sha256_hexdigest k'.

(** Stand-ins for the external libraries, to run the model on examples.
    They have the shape of the interface and none of the security: the
    stand-in for [bcrypt] stores the password itself and the stand-in for
    SHA-256 puts a mark in front of its input. *)
Module StandIn.

Definition bcrypt : Bcrypt :=
  {| salt := ();
     hashpw := λ password _, password;
     checkpw := λ password stored, bool_decide (password = stored) |}.

Definition digest : Digest :=
  {| sha256_hexdigest := λ s, "#" +:+ s;
     b64encode := String.string_of_list_byte |}.

(** The stand-in for [int] reads a text of the digits 0 to 9 and no
    other; the stand-in for [str(e)] writes a file name between quotes
    as it is. *)
Fixpoint digits (value : Z) (s : string) : option Z :=
  match s with
  | EmptyString => Some value
  | String a s' =>
      let n := nat_of_ascii a in
      if bool_decide (48 ≤ n ≤ 57)%nat
      then digits (10 * value + Z.of_nat (n - 48)) s'
      else None
  end.

Definition interpreter : Py.Interpreter :=
  {| Py.str := λ e,
       match e with
       | FileNotFoundError filename =>
           "[Errno 2] No such file or directory: '" +:+ filename +:+ "'"
       | NotADirectoryError filename =>
           "[Errno 20] Not a directory: '" +:+ filename +:+ "'"
       | ValueError_null_byte => "embedded null byte"
       | ValueError_time_data => "time data does not match the format"
       | ValueError_int literal =>
           "invalid literal for int() with base 10: '" +:+ literal +:+ "'"
       end;
     Py.int := λ s, if bool_decide (s = "") then None else digits 0 s |}.

End StandIn.

(** Example data: [n] calls of [add_entry] by one user, one per
    microsecond from 0 on. *)
Definition calls_of (username : string) (n : nat) : list HistoryManager.call :=
  (λ i, HistoryManager.mk_call (Z.of_nat i) username "sentiment" "q" "r")
    <$> seq 0 n.

(** Example data: five sentiment queries and three summarizations of
    one user, on two days.  The first and the fourth fall on a whole
    second. *)
Definition two_days : list HistoryManager.call :=
  [ HistoryManager.mk_call 0 "ann" "sentiment" "q0" "r0";
    HistoryManager.mk_call 1 "ann" "sentiment" "q1" "r1";
    HistoryManager.mk_call 2 "ann" "sentiment" "q2" "r2";
    HistoryManager.mk_call 86400000000 "ann" "summarization" "q3" "r3";
    HistoryManager.mk_call 86400000001 "ann" "sentiment" "q4" "r4";
    HistoryManager.mk_call 86400000002 "ann" "summarization" "q5" "r5";
    HistoryManager.mk_call 86400000003 "ann" "sentiment" "q6" "r6";
    HistoryManager.mk_call 86400000004 "ann" "summarization" "q7" "r7" ].

(** Example data: the same eight queries, none of them on a whole
    second. *)
Definition two_days_between_seconds : list HistoryManager.call :=
  [ HistoryManager.mk_call 250000 "ann" "sentiment" "q0" "r0";
    HistoryManager.mk_call 500000 "ann" "sentiment" "q1" "r1";
    HistoryManager.mk_call 750000 "ann" "sentiment" "q2" "r2";
    HistoryManager.mk_call 86400250000 "ann" "summarization" "q3" "r3";
    HistoryManager.mk_call 86400500000 "ann" "sentiment" "q4" "r4";
    HistoryManager.mk_call 86400750000 "ann" "summarization" "q5" "r5";
    HistoryManager.mk_call 86401250000 "ann" "sentiment" "q6" "r6";
    HistoryManager.mk_call 86401500000 "ann" "summarization" "q7" "r7" ].

(** Example data: two keys issued to two users. *)
Definition two_issues : list APIKeyManager.issue :=
  [ APIKeyManager.mk_issue [Byte.x61; Byte.x62] 1 "ann";
    APIKeyManager.mk_issue [Byte.x63; Byte.x64] 2 "bob" ].

(** ** Notions for further properties *)

(** The times of the admitted ones among checks made at [nows] and
    answered with [answers], in order. *)
Fixpoint admitted_times (nows : list datetime) (answers : list (bool * string))
  : list datetime :=
  match nows, answers with
  | now :: nows', (ok, _) :: answers' =>
      (if ok then [now] else []) ++ admitted_times nows' answers'
  | _, _ => []
  end.

(** A username that is one component of a path: it has no "/" and no
    NUL and is short enough for a file name. *)
Definition plain (username : string) : Prop :=
  contains "/" username = false ∧
  Py.has_null username = false ∧
  (String.length username ≤ 250)%nat.

(** A column of timestamps that [pd.to_datetime] takes. *)
Definition pandas_reads (column : list datetime) : Prop :=
  to_datetime column = Returns column.

(** An entry as [add_entry] stores it: at most 200 characters of query
    and 500 of result. *)
Definition within_bounds (e : HistoryEntry.t) : Prop :=
  (Py.len (HistoryEntry.query e) ≤ 200)%nat ∧
  (Py.len (HistoryEntry.result e) ≤ 500)%nat.

(** A history directory in which every file holds at most 100 entries,
    each within bounds. *)
Definition well_formed (dir : HistoryManager.t) : Prop :=
  ∀ file history,
    dir !! file = Some history →
    (length history ≤ 100)%nat ∧ Forall within_bounds history.

(** ** [UserManager.update_user]

    The [updates] argument is a dictionary; the model takes the updates
    over the five keys an account has, where an absent key leaves the
    field as it is. *)

Module Updates.
Record t : Type := mk {
  password : option string;
  email : option string;
  tier : option string;
  created_at : option datetime;
  api_key : option (option string)
}.
End Updates.

(** [account.update(updates)] *)
Definition dict_update (account : Account.t) (updates : Updates.t)
  : Account.t :=
  {| Account.password :=
       default (Account.password account) (Updates.password updates);
     Account.email := default (Account.email account) (Updates.email updates);
     Account.tier := default (Account.tier account) (Updates.tier updates);
     Account.created_at :=
       default (Account.created_at account) (Updates.created_at updates);
     Account.api_key :=
       default (Account.api_key account) (Updates.api_key updates) |}.

Definition update_user (username : string) (updates : Updates.t)
  : State UserManager.t bool :=
  self ← get;
  match UserManager.users self !! username with
  | Some account =>
      modify (UserManager.set_user username (dict_update account updates));;
      modify UserManager._save_users;;
      mret true
  | None => mret false
  end.

(** One call of [register_user]. *)
Record registration `{Bcrypt} : Type := mk_registration {
  g_gensalt : salt;
  g_now : datetime;
  g_username : string;
  g_password : string;
  g_email : string
}.

Definition enroll `{Bcrypt} (g : registration)
  : State UserManager.t (bool * string) :=
  UserManager.register_user (g_gensalt g) (g_now g)
    (g_username g) (g_password g) (g_email g).

(** The account a registration creates. *)
Definition account_of `{Bcrypt} (g : registration) : Account.t :=
  {| Account.password := hashpw (g_password g) (g_gensalt g);
     Account.email := g_email g;
     Account.tier := "user";
     Account.created_at := g_now g;
     Account.api_key := None |}.

(** Example data: a manager that knows "ann", and two later
    registrations, one of them under her name. *)
Definition ann_registered : UserManager.t :=
  (UserManager.register_user (H := StandIn.bcrypt) () 7
     "ann" "correct horse" "ann@example.org" (UserManager.init None)).2.

Definition later_registrations : list (registration (H := StandIn.bcrypt)) :=
  [ mk_registration StandIn.bcrypt () 8 "ann" "battery staple" "x@example.org";
    mk_registration StandIn.bcrypt () 9 "bob" "hunter2hunter2" "bob@example.org" ].

(** ** The pages

    A page is a function of what the user entered in its form and of the
    state it reads and writes.  Of what a page shows, the model keeps the
    notice that answers the form ([st.error], [st.success],
    [st.warning]); titles, charts and metrics are left out.  A call that
    can raise returns [Raise]. *)

Inductive raised_or (A : Type) : Type :=
| Return (a : A)
| Raise (exception : string).
Arguments Return {A} a.
Arguments Raise {A} exception.

Inductive notice : Type :=
| st_error (message : string)
| st_success (message : string)
| st_warning (message : string).

(** [st.session_state], once [main] has set the keys it uses. *)
Module Session.
Record t : Type := mk {
  authenticated : bool;
  username : option string;
  user_tier : option string;
  page : option string
}.
End Session.

(** The session of a new visitor, as the first lines of [main] set it. *)
Definition new_session : Session.t :=
  {| Session.authenticated := false;
     Session.username := None;
     Session.user_tier := Some "guest";
     Session.page := None |}.

(** [signup_page], on the file [users.json]: the page creates its
    [UserManager] from the file, and what [register_user] saves is the
    file afterwards. *)
Definition signup_page `{Bcrypt} (gensalt : salt) (now : datetime)
    (submit : bool) (username email password confirm_password : string)
  : State (option (gmap string Account.t)) (option notice) :=
  if submit then
    if decide (username = "" ∨ email = "" ∨ password = "") then
      mret (Some (st_error "Please fill in all fields"))
    else if decide (password ≠ confirm_password) then
      mret (Some (st_error "Passwords do not match"))
    else if decide (Py.len password < 8)%nat then
      mret (Some (st_error "Password must be at least 8 characters"))
    else
      file ← get;
      let user_manager := UserManager.init file in
      let '((success, message), user_manager) :=
        UserManager.register_user gensalt now username password email
          user_manager in
      put (UserManager.users_file user_manager);;
      if success then mret (Some (st_success (message +:+ " Please login.")))
      else mret (Some (st_error message))
  else mret None.

(** [login_page]: it reads [users.json] and writes the session.  After
    a successful login the source calls [st.rerun()], which ends this run
    of the script; the model returns what the page has shown and written
    by then.  [bcrypt.checkpw] is the total function of the interface
    [Bcrypt]: what the page does when the library raises on a stored
    string is not modelled. *)
Definition login_page `{Bcrypt} (file : option (gmap string Account.t))
    (submit : bool) (username password : string)
  : State Session.t (raised_or (option notice)) :=
  if submit then
    if decide (username = "" ∨ password = "") then
      mret (Return (Some (st_error "Please enter both username and password")))
    else
      let user_manager := UserManager.init file in
      if (UserManager.authenticate_user username password user_manager).1 then
        session ← get;
        match (UserManager.get_user username user_manager).1 with
        | Some user_data =>
            put {| Session.authenticated := true;
                   Session.username := Some username;
                   Session.user_tier := Some (Account.tier user_data);
                   Session.page := Session.page session |};;
            mret (Return (Some (st_success "Login successful!")))
        | None =>
            put {| Session.authenticated := true;
                   Session.username := Some username;
                   Session.user_tier := Session.user_tier session;
                   Session.page := Session.page session |};;
            mret (Raise "AttributeError")
        end
      else mret (Return (Some (st_error "Invalid username or password")))
  else mret (Return None).

Definition logout (session : Session.t) : Session.t :=
  {| Session.authenticated := false;
     Session.username := None;
     Session.user_tier := None;
     Session.page := Session.page session |}.

(** The two checks at the head of [admin_dashboard]; [None] lets the
    visitor through to the statistics. *)
Definition admin_dashboard_check (session : Session.t) : option notice :=
  if negb (Session.authenticated session) then
    Some (st_warning "Please login")
  else if decide (Session.username session ≠ Some "admin") then
    Some (st_error "Access denied. Admin only.")
  else None.

(** The form of [signup_page] as the page accepts it. *)
Definition acceptable (submit : bool)
    (username email password confirm_password : string) : Prop :=
  submit = true ∧ username ≠ "" ∧ email ≠ "" ∧ password ≠ "" ∧
  password = confirm_password ∧ (8 ≤ Py.len password)%nat.

(** The session of a user who has logged in. *)
Definition logged_in (username tier : string) (session : Session.t)
  : Session.t :=
  {| Session.authenticated := true;
     Session.username := Some username;
     Session.user_tier := Some tier;
     Session.page := Session.page session |}.

(** ** The tool pages

    The four tools are calls into models outside the application; a page
    takes the tool as a function that returns the text [str(result)] of
    its result or raises.  Of a page the model keeps the notice that
    follows the call and what it writes to the history; the metrics and
    charts drawn after the notice are left out. *)

(** [f"{username}"] for [st.session_state.username], which may be
    [None]. *)
Definition str_username (username : option string) : string :=
  default "None" username.

(** The block every tool page has:
    [if st.session_state.get('authenticated'): HistoryManager().add_entry(...)]. *)
Definition save_to_history (now : datetime) (session : Session.t)
    (tool query result : string) : State HistoryManager.t (outcome ()) :=
  if Session.authenticated session then
    HistoryManager.add_entry now (str_username (Session.username session))
      tool query result
  else mret (Returns ()).

(** What a page shows once the tool has returned: the block above runs
    inside the page's [try], so an exception of [add_entry] is shown by
    [except Exception as e: st.error(f"Error: {str(e)}")] in place of the
    success. *)
Definition shown_after `{Py.Interpreter} (saved : outcome ())
    (success : string) : outcome (option notice) :=
  match saved with
  | Returns _ => Returns (Some (st_success success))
  | Raises e => Returns (Some (st_error ("Error: " +:+ Py.str e)))
  | Unknown => Unknown
  end.

Definition sentiment_analysis_page `{Py.Interpreter}
    (now : datetime) (session : Session.t)
    (analyze_sentiment : string → raised_or string)
    (analyze_btn : bool) (text : string)
  : State HistoryManager.t (outcome (option notice)) :=
  if analyze_btn && bool_decide (text ≠ "") then
    match analyze_sentiment text with
    | Return result =>
        saved ← save_to_history now session "sentiment_analysis" text result;
        mret (shown_after saved "Analysis Complete!")
    | Raise e => mret (Returns (Some (st_error ("Error: " +:+ e))))
    end
  else mret (Returns None).

Definition text_summarization_page `{Py.Interpreter}
    (now : datetime) (session : Session.t)
    (summarize_text : string → Z → Z → raised_or string)
    (summarize_btn : bool) (text : string) (max_length min_length : Z)
  : State HistoryManager.t (outcome (option notice)) :=
  if summarize_btn && bool_decide (text ≠ "") then
    if decide (Py.len text < 50)%nat then
      mret (Returns (Some (st_warning
        "Text is too short to summarize. Please enter at least 50 characters.")))
    else
      match summarize_text text max_length min_length with
      | Return summary =>
          saved ← save_to_history now session "text_summarization" text
                    summary;
          mret (shown_after saved "Summary Generated!")
      | Raise e => mret (Returns (Some (st_error ("Error: " +:+ e))))
      end
  else mret (Returns None).

Definition fake_news_detection_page `{Py.Interpreter}
    (now : datetime) (session : Session.t)
    (detect_fake_news : string → raised_or string)
    (detect_btn : bool) (text : string)
  : State HistoryManager.t (outcome (option notice)) :=
  if detect_btn && bool_decide (text ≠ "") then
    match detect_fake_news text with
    | Return result =>
        saved ← save_to_history now session "fake_news_detection" text result;
        mret (shown_after saved "Analysis Complete!")
    | Raise e => mret (Returns (Some (st_error ("Error: " +:+ e))))
    end
  else mret (Returns None).

Definition job_matching_page `{Py.Interpreter}
    (now : datetime) (session : Session.t)
    (match_job : string → string → raised_or string)
    (match_btn : bool) (resume job_desc : string)
  : State HistoryManager.t (outcome (option notice)) :=
  if match_btn && bool_decide (resume ≠ "") && bool_decide (job_desc ≠ "") then
    match match_job resume job_desc with
    | Return result =>
        saved ← save_to_history now session "job_matching" "Resume vs Job"
                  result;
        mret (shown_after saved "Match Calculated!")
    | Raise e => mret (Returns (Some (st_error ("Error: " +:+ e))))
    end
  else mret (Returns None).

(** ** [config.py]

    The class body of [Config] as far as it can fail or is read by
    [validate]: the four attributes [validate] reads and the seven that
    are converted with [int], in the order of the source.  The other
    attributes are texts and paths taken from the environment as they
    are.  The environment is [os.environ] after [load_dotenv()]. *)

(** [s.lower()], on the letters A to Z.  Other characters are left as
    they are; no character outside A to Z becomes one of the letters of
    'true', so [s.lower() == 'true'] is decided as in Python. *)
Definition lower_char (a : Ascii.ascii) : Ascii.ascii :=
  let n := Ascii.nat_of_ascii a in
  if bool_decide (65 ≤ n ≤ 90)%nat then Ascii.ascii_of_nat (n + 32) else a.

Fixpoint lower (s : string) : string :=
  match s with
  | EmptyString => EmptyString
  | String a s' => String (lower_char a) (lower s')
  end.

Global Instance raised_or_ret : MRet raised_or := λ A a, Return a.
Global Instance raised_or_bind : MBind raised_or := λ A B f m,
  match m with
  | Return a => f a
  | Raise e => Raise e
  end.

Module Config.

Record t : Type := mk {
  APP_ENV : string;
  DEBUG : bool;
  SECRET_KEY : option string;
  ADMIN_PASSWORD : option string;
  PORT : Z;
  MAX_UPLOAD_SIZE : Z;
  CACHE_TTL : Z;
  MAX_BATCH_SIZE : Z;
  GUEST_RATE_LIMIT : Z;
  USER_RATE_LIMIT : Z;
  PRO_RATE_LIMIT : Z
}.

(** [os.getenv(key)] is [environ !! key]; [os.getenv(key, fallback)]
    falls back on [fallback]. *)
Definition getenv (environ : gmap string string) (key fallback : string)
  : string :=
  default fallback (environ !! key).

(** [int(os.getenv(key, fallback))] *)
Definition int_getenv `{Py.Interpreter} (environ : gmap string string)
    (key fallback : string) : raised_or Z :=
  let value := getenv environ key fallback in
  match Py.int value with
  | Some n => Return n
  | None => Raise (Py.str (ValueError_int value))
  end.

Definition class_body `{Py.Interpreter} (environ : gmap string string)
  : raised_or t :=
  let app_env := getenv environ "APP_ENV" "development" in
  let debug := bool_decide (lower (getenv environ "DEBUG" "false") = "true") in
  let secret_key := environ !! "SECRET_KEY" in
  let admin_password := environ !! "ADMIN_PASSWORD" in
  port ← int_getenv environ "PORT" "8501";
  max_upload_size ← int_getenv environ "MAX_UPLOAD_SIZE" "10";
  cache_ttl ← int_getenv environ "CACHE_TTL" "300";
  max_batch_size ← int_getenv environ "MAX_BATCH_SIZE" "100";
  guest_rate_limit ← int_getenv environ "GUEST_RATE_LIMIT" "10";
  user_rate_limit ← int_getenv environ "USER_RATE_LIMIT" "100";
  pro_rate_limit ← int_getenv environ "PRO_RATE_LIMIT" "1000";
  mret {| APP_ENV := app_env;
          DEBUG := debug;
          SECRET_KEY := secret_key;
          ADMIN_PASSWORD := admin_password;
          PORT := port;
          MAX_UPLOAD_SIZE := max_upload_size;
          CACHE_TTL := cache_ttl;
          MAX_BATCH_SIZE := max_batch_size;
          GUEST_RATE_LIMIT := guest_rate_limit;
          USER_RATE_LIMIT := user_rate_limit;
          PRO_RATE_LIMIT := pro_rate_limit |}.

(** [not value] for a value that is [None] or a string. *)
Definition missing (value : option string) : bool :=
  match value with
  | None => true
  | Some s => bool_decide (s = "")
  end.

Definition validate (cls : t) : raised_or () :=
  let errors := [] in
  let errors :=
    if missing (SECRET_KEY cls) then errors ++ ["SECRET_KEY is required"]
    else errors in
  let errors :=
    if missing (ADMIN_PASSWORD cls)
    then errors ++ ["ADMIN_PASSWORD is required"]
    else errors in
  let errors :=
    if bool_decide (APP_ENV cls = "production") && DEBUG cls
    then errors ++ ["DEBUG should be false in production"]
    else errors in
  match errors with
  | [] => Return ()
  | _ :: _ =>
      Raise ("Configuration errors: " +:+ String.concat ", " errors)
  end.

(** Importing the module: the class body runs, then the last line calls
    [Config.validate()]. *)
Definition on_import `{Py.Interpreter} (environ : gmap string string)
  : raised_or () :=
  cls ← class_body environ;
  validate cls.

(** The variables of the environment that the class body converts with
    [int], each with the text it falls back on. *)
Definition integer_settings : list (string * string) :=
  [ ("PORT", "8501"); ("MAX_UPLOAD_SIZE", "10"); ("CACHE_TTL", "300");
    ("MAX_BATCH_SIZE", "100"); ("GUEST_RATE_LIMIT", "10");
    ("USER_RATE_LIMIT", "100"); ("PRO_RATE_LIMIT", "1000") ].

End Config.

(** ** Job matching: the recommendation *)

(** The thresholds are the binary64 numbers nearest to 0.9, 0.8, 0.7 and
    0.6, as in Python; [score >= 0.9] is [0.9 <= score]. *)
#[warnings="-inexact-float"]
Definition get_match_recommendation (score : float) : string :=
  if (0.9 <=? score)%float then "Excellent Match"
  else if (0.8 <=? score)%float then "Strong Match"
  else if (0.7 <=? score)%float then "Good Match"
  else if (0.6 <=? score)%float then "Fair Match"
  else "Weak Match".

(** The colour [job_matching_page] gives to a recommendation. *)
Definition recommendation_color (recommendation : string) : string :=
  if contains "Excellent" recommendation || contains "Strong" recommendation
  then "green" else "orange".

(** The place of a recommendation among the five, from the weakest. *)
Definition strength (recommendation : string) : nat :=
  if decide (recommendation = "Excellent Match") then 4
  else if decide (recommendation = "Strong Match") then 3
  else if decide (recommendation = "Good Match") then 2
  else if decide (recommendation = "Fair Match") then 1
  else 0.

(** * Properties *)

(** ** The state monad *)

Lemma sequence_cons {S A} (m : State S A) (ms : list (State S A)) (s : S) :
  sequence (m :: ms) s
  = let '(a, s') := m s in
    let '(as', s'') := sequence ms s' in
    (a :: as', s'').
Proof.
  simpl. unfold mbind, State_bind. destruct (m s) as [a s'].
  by destruct (sequence ms s').
Qed.

Lemma sequence_app {S A} (ms1 ms2 : list (State S A)) (s : S) :
  sequence (ms1 ++ ms2) s
  = let '(as1, s') := sequence ms1 s in
    let '(as2, s'') := sequence ms2 s' in
    (as1 ++ as2, s'').
Proof.
  revert s. induction ms1 as [|m ms1 IH]; intros s.
  - simpl. unfold mret, State_ret. by destruct (sequence ms2 s).
  - rewrite <-app_comm_cons, !sequence_cons.
    destruct (m s) as [a s1]. rewrite IH.
    destruct (sequence ms1 s1) as [as1 s2].
    by destruct (sequence ms2 s2).
Qed.

(** ** The rate limiter *)

Section rate_limiter.
Import RateLimiter.
Implicit Types (self : t) (w : list datetime) (now : datetime).
Implicit Types (username tier : string).

Lemma window_set_window username w self :
  window (set_window username w self) username = w.
Proof. unfold window, set_window. simpl. by rewrite lookup_insert_eq. Qed.

Lemma window_set_window_ne username username' w self :
  username ≠ username' →
  window (set_window username w self) username' = window self username'.
Proof.
  intros Hne. unfold window, set_window. simpl.
  by rewrite lookup_insert_ne.
Qed.

Lemma set_window_set_window username w w' self :
  set_window username w (set_window username w' self)
  = set_window username w self.
Proof. unfold set_window. simpl. by rewrite insert_insert_eq. Qed.

Lemma window_save self username :
  window (_save_limits self) username = window self username.
Proof. done. Qed.

Lemma window_ensure_window username username' self :
  window (ensure_window username self) username' = window self username'.
Proof.
  unfold ensure_window. case_decide as Hin; [done|].
  destruct (decide (username = username')) as [<-|Hne].
  - rewrite window_set_window. unfold window.
    destruct (limits self !! username) eqn:E; [|done].
    exfalso. apply Hin. by eexists.
  - by rewrite window_set_window_ne.
Qed.

Lemma prune_ensure_window hour_ago username self :
  prune hour_ago username (ensure_window username self)
  = set_window username (fresh hour_ago (window self username)) self.
Proof.
  unfold prune. rewrite window_ensure_window.
  unfold ensure_window. case_decide; [done|].
  apply set_window_set_window.
Qed.

(** [check_limit] as one case distinction on the pruned window. *)
Lemma check_limit_eq now username tier self :
  let w := fresh (now - timedelta_hours 1) (window self username) in
  check_limit now username tier self =
    if bool_decide (limit_of tier ≤ Z.of_nat (length w)) then
      ((false, exceeded_message (limit_of tier)),
       set_window username w self)
    else
      ((true,
        remaining_message
          (limit_of tier - Z.of_nat (length (w ++ [now]))) (limit_of tier)),
       _save_limits (set_window username (w ++ [now]) self)).
Proof.
  intros w. unfold check_limit, mbind, State_bind, modify, get, mret,
    State_ret.
  rewrite prune_ensure_window. fold w.
  unfold exceeded. rewrite window_set_window.
  case_bool_decide; [done|].
  unfold record_request.
  rewrite window_save, !window_set_window, set_window_set_window.
  done.
Qed.

Lemma fresh_all hour_ago w :
  Forall (λ ts, hour_ago < ts) w → fresh hour_ago w = w.
Proof.
  unfold fresh. induction 1 as [|ts w Hts _ IH]; [done|].
  rewrite filter_cons_True by done. f_equal. exact IH.
Qed.

Lemma length_fresh hour_ago w :
  (length (fresh hour_ago w) ≤ length w)%nat.
Proof. apply length_filter. Qed.

Lemma limit_of_guest : limit_of "guest" = 10.
Proof. reflexivity. Qed.

Lemma limit_of_user : limit_of "user" = 100.
Proof. reflexivity. Qed.

Lemma limit_of_pro : limit_of "pro" = 1000.
Proof. reflexivity. Qed.

Lemma limit_of_other tier :
  tier ≠ "guest" → tier ≠ "user" → tier ≠ "pro" → limit_of tier = 10.
Proof.
  intros Hg Hu Hp. unfold limit_of, RATE_LIMITS.
  rewrite !lookup_insert_ne by done. by rewrite lookup_singleton_ne.
Qed.

Lemma limit_of_pos tier : 0 < limit_of tier.
Proof.
  destruct (decide (tier = "guest")) as [->|Hg]; [done|].
  destruct (decide (tier = "user")) as [->|Hu]; [done|].
  destruct (decide (tier = "pro")) as [->|Hp]; [done|].
  by rewrite limit_of_other.
Qed.

(** A check that finds room admits the request and stores its time. *)
Lemma check_limit_admits now username tier self :
  let w := fresh (now - timedelta_hours 1) (window self username) in
  Z.of_nat (length w) < limit_of tier →
  check_limit now username tier self
  = ((true,
      remaining_message
        (limit_of tier - Z.of_nat (length w) - 1) (limit_of tier)),
     _save_limits (set_window username (w ++ [now]) self)).
Proof.
  intros w Hlt. rewrite check_limit_eq. fold w.
  rewrite bool_decide_eq_false_2 by lia.
  rewrite length_app. simpl. do 3 f_equal. lia.
Qed.

(** A check that finds the window full rejects the request and appends
    nothing. *)
Lemma check_limit_rejects now username tier self :
  let w := fresh (now - timedelta_hours 1) (window self username) in
  limit_of tier ≤ Z.of_nat (length w) →
  check_limit now username tier self
  = ((false, exceeded_message (limit_of tier)), set_window username w self).
Proof.
  intros w Hge. rewrite check_limit_eq. fold w.
  by rewrite bool_decide_eq_true_2.
Qed.

(** A check for one user leaves the windows of the others as they are. *)
Lemma check_limit_other now username username' tier self :
  username ≠ username' →
  window (check_limit now username tier self).2 username'
  = window self username'.
Proof.
  intros Hne. rewrite check_limit_eq. simpl.
  case_bool_decide; simpl; rewrite ?window_save;
    by rewrite window_set_window_ne.
Qed.

End rate_limiter.

Section rate_limiter_claims.
Import RateLimiter.
Implicit Types (self : t) (w : list datetime) (now : datetime).
Implicit Types (username tier : string).

(** Checks that all fall within an hour of each other and of what the
    window holds, and that fit under the limit, are all admitted. *)
Lemma burst_admitted tier username (nows : list datetime) : ∀ self,
  let w := window self username in
  Forall (λ now, Forall (λ ts, now - timedelta_hours 1 < ts) (w ++ nows))
    nows →
  Z.of_nat (length w + length nows) ≤ limit_of tier →
  let run :=
    sequence ((λ now, check_limit now username tier) <$> nows) self in
  run.1 = countdown (limit_of tier) (Z.of_nat (length w)) (length nows) ∧
  window run.2 username = w ++ nows.
Proof.
  induction nows as [|now nows IH]; intros self w Hfresh Hroom run.
  { subst run. simpl. by rewrite app_nil_r. }
  apply Forall_cons in Hfresh as [Hnow Hrest].
  subst run. rewrite fmap_cons, sequence_cons.
  assert (fresh (now - timedelta_hours 1) w = w) as Hw.
  { apply fresh_all. by apply Forall_app in Hnow as [? _]. }
  rewrite check_limit_admits; fold w; rewrite Hw;
    [|simpl in Hroom; lia].
  set (self1 := _save_limits (set_window username (w ++ [now]) self)).
  assert (window self1 username = w ++ [now]) as Hw1.
  { subst self1. by rewrite window_save, window_set_window. }
  specialize (IH self1). simpl in IH. rewrite Hw1 in IH.
  destruct IH as [IHans IHwin].
  { eapply Forall_impl; [exact Hrest|]. intros t Ht.
    by rewrite <-app_assoc. }
  { rewrite length_app. simpl in *. lia. }
  destruct (sequence _ self1) as [answers self'] eqn:Hrun.
  simpl in *. split.
  - rewrite IHans, length_app. simpl. do 2 f_equal. lia.
  - by rewrite IHwin, <-app_assoc.
Qed.

(** C9: at a rate-limit evaluation, every timestamp the pruning keeps in
    the user's window, and every timestamp in the window when
    [check_limit] returns, is strictly greater than the cutoff
    [now - 1 hour], that is, less than an hour old; a timestamp exactly
    one hour old is in neither. *)
Theorem retained_timestamps_younger_than_an_hour now username tier self :
  let cutoff := now - timedelta_hours 1 in
  let pruned := prune cutoff username (ensure_window username self) in
  let self' := (check_limit now username tier self).2 in
  (∀ ts, ts ∈ window pruned username →
         cutoff < ts ∧ now - ts < timedelta_hours 1) ∧
  (∀ ts, ts ∈ window self' username →
         cutoff < ts ∧ now - ts < timedelta_hours 1) ∧
  (cutoff ∉ window pruned username) ∧
  (cutoff ∉ window self' username).
Proof.
  intros cutoff pruned self'.
  assert (∀ ts, ts ∈ fresh cutoff (window self username) → cutoff < ts)
    as Hfresh.
  { intros ts Hin. unfold fresh in Hin.
    by apply list_elem_of_filter in Hin as [? _]. }
  assert (∀ ts, ts ∈ window pruned username → cutoff < ts) as Hpruned.
  { subst pruned. rewrite prune_ensure_window, window_set_window.
    exact Hfresh. }
  assert (∀ ts, ts ∈ window self' username → cutoff < ts) as Hafter.
  { subst self'. rewrite check_limit_eq. simpl.
    case_bool_decide; simpl; rewrite ?window_save, window_set_window;
      [exact Hfresh|].
    intros ts [Hin| ->%list_elem_of_singleton]%elem_of_app;
      [by apply Hfresh|].
    subst cutoff. unfold timedelta_hours. lia. }
  repeat split.
  - by apply Hpruned.
  - apply Hpruned in H. subst cutoff. lia.
  - by apply Hafter.
  - apply Hafter in H. subst cutoff. lia.
  - intros Hin%Hpruned. lia.
  - intros Hin%Hafter. lia.
Qed.

(** C1: a guest (limit 10) whose window is empty makes ten checks within
    one second: all are admitted, with remaining quota 9, 8, ..., 0.  An
    eleventh check less than an hour after the first is rejected, and the
    answer carries the limit 10.  A check more than an hour after the
    first is admitted again. *)
Theorem guest_burst_rejected_then_admitted_again
    self username (first : datetime) (rest : list datetime)
    (eleventh later : datetime) :
  window self username = [] →
  length rest = 9%nat →
  Forall (λ now, first ≤ now < first + 1000000) rest →
  eleventh - first < timedelta_hours 1 →
  first + timedelta_hours 1 < later →
  let '(answers, self10) :=
    sequence ((λ now, check_limit now username "guest") <$> first :: rest)
      self in
  let '(answer11, self11) := check_limit eleventh username "guest" self10 in
  let '(answer12, self12) := check_limit later username "guest" self11 in
  answers = [ (true, "Remaining: 9/10"); (true, "Remaining: 8/10");
              (true, "Remaining: 7/10"); (true, "Remaining: 6/10");
              (true, "Remaining: 5/10"); (true, "Remaining: 4/10");
              (true, "Remaining: 3/10"); (true, "Remaining: 2/10");
              (true, "Remaining: 1/10"); (true, "Remaining: 0/10") ] ∧
  answer11 = (false, "Rate limit exceeded. Limit: 10/hour") ∧
  window self11 username = first :: rest ∧
  answer12.1 = true ∧
  (later ∈ window self12 username) ∧
  (first ∉ window self12 username).
Proof.
  intros Hempty Hlen Hsecond Heleventh Hlater.
  pose proof (burst_admitted "guest" username (first :: rest) self) as Hburst.
  cbv zeta in Hburst. rewrite Hempty, !app_nil_l in Hburst.
  destruct Hburst as [Hanswers Hwindow].
  { unfold timedelta_hours. constructor.
    - constructor; [lia|].
      eapply Forall_impl; [exact Hsecond|]. simpl. lia.
    - apply Forall_forall. intros now Hnow.
      pose proof (proj1 (Forall_forall _ _) Hsecond now Hnow) as Hn.
      simpl in Hn. constructor; [lia|].
      eapply Forall_impl; [exact Hsecond|]. simpl. lia. }
  { rewrite limit_of_guest. simpl. rewrite Hlen. lia. }
  destruct (sequence _ self) as [answers self10]. simpl in Hanswers, Hwindow.
  (* the eleventh check *)
  assert (fresh (eleventh - timedelta_hours 1) (first :: rest)
          = first :: rest) as Hfresh11.
  { apply fresh_all. unfold timedelta_hours in *. constructor; [lia|].
    eapply Forall_impl; [exact Hsecond|]. simpl. lia. }
  rewrite check_limit_rejects; rewrite Hwindow, Hfresh11;
    [|rewrite limit_of_guest; simpl; lia].
  (* the check an hour later *)
  set (self11 := set_window username (first :: rest) self10).
  assert (window self11 username = first :: rest) as Hwindow11.
  { subst self11. by rewrite window_set_window. }
  assert (fresh (later - timedelta_hours 1) (first :: rest)
          = fresh (later - timedelta_hours 1) rest) as Hfresh12.
  { unfold fresh. rewrite filter_cons_False; [done|lia]. }
  rewrite check_limit_admits; rewrite Hwindow11, Hfresh12.
  2:{ rewrite limit_of_guest.
      pose proof (length_fresh (later - timedelta_hours 1) rest). lia. }
  rewrite window_save, window_set_window.
  split_and!; try done.
  - rewrite Hanswers, Hlen. reflexivity.
  - apply elem_of_app. right. by apply list_elem_of_singleton.
  - unfold timedelta_hours in *.
    intros [Hin| ->%list_elem_of_singleton]%elem_of_app; [|lia].
    unfold fresh in Hin. apply list_elem_of_filter in Hin as [? _]. lia.
Qed.

Lemma guest_burst_rejected_then_admitted_again_witness :
  let '(answers, self10) :=
    sequence ((λ now, check_limit now "ann" "guest")
                <$> 0 :: [1; 2; 3; 4; 5; 6; 7; 8; 9])
      (init None) in
  let '(answer11, self11) := check_limit 10 "ann" "guest" self10 in
  let '(answer12, self12) := check_limit 3600000001 "ann" "guest" self11 in
  answers = [ (true, "Remaining: 9/10"); (true, "Remaining: 8/10");
              (true, "Remaining: 7/10"); (true, "Remaining: 6/10");
              (true, "Remaining: 5/10"); (true, "Remaining: 4/10");
              (true, "Remaining: 3/10"); (true, "Remaining: 2/10");
              (true, "Remaining: 1/10"); (true, "Remaining: 0/10") ] ∧
  answer11 = (false, "Rate limit exceeded. Limit: 10/hour") ∧
  window self11 "ann" = 0 :: [1; 2; 3; 4; 5; 6; 7; 8; 9] ∧
  answer12.1 = true ∧
  (3600000001 ∈ window self12 "ann") ∧
  (0 ∉ window self12 "ann").
Proof.
  apply (guest_burst_rejected_then_admitted_again
           (init None) "ann" 0 [1; 2; 3; 4; 5; 6; 7; 8; 9] 10 3600000001).
  - reflexivity.
  - reflexivity.
  - repeat constructor; lia.
  - unfold timedelta_hours. lia.
  - unfold timedelta_hours. lia.
Defined.

End rate_limiter_claims.

Section rate_limiter_invariant.
Import RateLimiter.
Implicit Types (self : t) (now : datetime) (username tier : string).

(** One check keeps a window within the limit if it was within it. *)
Lemma check_limit_keeps_bound now username tier self :
  Z.of_nat (length (window self username)) ≤ limit_of tier →
  Z.of_nat (length (window (check_limit now username tier self).2 username))
    ≤ limit_of tier.
Proof.
  intros Hbound. rewrite check_limit_eq. simpl.
  pose proof (length_fresh (now - timedelta_hours 1) (window self username)).
  case_bool_decide as Hfull; simpl;
    rewrite ?window_save, window_set_window; [lia|].
  rewrite length_app. simpl. lia.
Qed.

(** A rejected check appends nothing: it leaves the pruned window. *)
Lemma rejected_appends_nothing now username tier self :
  (check_limit now username tier self).1.1 = false →
  window (check_limit now username tier self).2 username
  = fresh (now - timedelta_hours 1) (window self username).
Proof.
  rewrite check_limit_eq. simpl.
  case_bool_decide; simpl; [|done]. intros _.
  by rewrite window_set_window.
Qed.

Lemma serve_keeps_bound (requests : list request) username tier : ∀ self,
  Z.of_nat (length (window self username)) ≤ limit_of tier →
  Forall (λ r, r_username r = username → r_tier r = tier) requests →
  Z.of_nat
    (length (window (sequence (serve <$> requests) self).2 username))
    ≤ limit_of tier.
Proof.
  induction requests as [|r requests IH]; intros self Hbound Htier; [done|].
  apply Forall_cons in Htier as [Hr Hrest].
  rewrite fmap_cons, sequence_cons.
  destruct (serve r self) as [answer self1] eqn:Hserve.
  specialize (IH self1).
  destruct (sequence (serve <$> requests) self1) as [answers self2].
  simpl in *. apply IH; [|done].
  replace self1 with (serve r self).2 by by rewrite Hserve.
  unfold serve.
  destruct (decide (r_username r = username)) as [Heq|Hne].
  - rewrite (Hr Heq), <-Heq. apply check_limit_keeps_bound.
    by rewrite Heq.
  - by rewrite check_limit_other.
Qed.

(** C10, as amended: for checks that run one whole call after another.
    When every check for a user names the same tier and the user's
    window starts within that tier's limit (an absent or empty window
    does), then after every check of any sequence of such checks, for
    this and for other users, the user's window in memory holds at most
    [limit] timestamps.  The limit is 10 for guest, 100 for user, 1000
    for pro and 10 for any other tier; a rejected check appends nothing:
    it leaves the pruned window. *)
Theorem window_within_limit_after_every_check
    self (requests : list request) username tier :
  Z.of_nat (length (window self username)) ≤ limit_of tier →
  Forall (λ r, r_username r = username → r_tier r = tier) requests →
  (∀ n : nat,
     let self' := (sequence (serve <$> take n requests) self).2 in
     Z.of_nat (length (window self' username)) ≤ limit_of tier) ∧
  (limit_of "guest" = 10 ∧ limit_of "user" = 100 ∧ limit_of "pro" = 1000 ∧
   ∀ other, other ≠ "guest" → other ≠ "user" → other ≠ "pro" →
            limit_of other = 10) ∧
  (∀ now self0,
     (check_limit now username tier self0).1.1 = false →
     window (check_limit now username tier self0).2 username
     = fresh (now - timedelta_hours 1) (window self0 username)).
Proof.
  intros Hbound Htier. split_and!.
  - intros n. apply serve_keeps_bound; [done|].
    by apply Forall_take.
  - apply limit_of_guest.
  - apply limit_of_user.
  - apply limit_of_pro.
  - apply limit_of_other.
  - intros now self0. apply rejected_appends_nothing.
Qed.

Lemma window_within_limit_after_every_check_witness :
  let requests :=
    [ mk_request 0 "ann" "guest"; mk_request 1 "bob" "pro";
      mk_request 2 "ann" "guest" ] in
  (∀ n : nat,
     let self' := (sequence (serve <$> take n requests) (init None)).2 in
     Z.of_nat (length (window self' "ann")) ≤ limit_of "guest") ∧
  (limit_of "guest" = 10 ∧ limit_of "user" = 100 ∧ limit_of "pro" = 1000 ∧
   ∀ other, other ≠ "guest" → other ≠ "user" → other ≠ "pro" →
            limit_of other = 10) ∧
  (∀ now self0,
     (check_limit now "ann" "guest" self0).1.1 = false →
     window (check_limit now "ann" "guest" self0).2 "ann"
     = fresh (now - timedelta_hours 1) (window self0 "ann")).
Proof.
  intros requests.
  apply (window_within_limit_after_every_check
           (init None) requests "ann" "guest").
  - vm_compute. discriminate.
  - subst requests. repeat constructor; simpl; congruence.
Defined.

End rate_limiter_invariant.

(** ** Calls of [check_limit] on a shared object *)

Section threads.
Import RateLimiter Threads.
Implicit Types (self : t) (c : config) (r : request) (i : nat).

Lemma run_one_at c i th :
  threads c !! i = Some th →
  run_one i c
  = {| threads := <[i := (step th (shared c)).1]> (threads c);
       shared := (step th (shared c)).2 |}.
Proof.
  intros Hth. unfold run_one. rewrite Hth.
  by destruct (step th (shared c)).
Qed.

Lemma run_app schedule1 schedule2 c :
  run (schedule1 ++ schedule2) c = run schedule2 (run schedule1 c).
Proof. unfold run. apply foldl_app. Qed.

Lemma run_cons i schedule c :
  run (i :: schedule) c = run schedule (run_one i c).
Proof. done. Qed.

(** Runs the next step of a schedule when the thread it names is known. *)
Ltac thread_step :=
  rewrite run_cons;
  erewrite run_one_at;
    [|first [eassumption | by apply list_lookup_insert_eq]];
  cbn [step call th_pc shared threads fst snd goto th_request];
  rewrite ?list_insert_insert_eq.

(** The statements of a call, run with nothing in between, are one call
    of [check_limit]. *)
Lemma run_whole_call c i r :
  threads c !! i = Some (call r) →
  run (whole_call i) c
  = {| threads :=
         <[i := goto (call r) (returned (serve r (shared c)).1)]> (threads c);
       shared := (serve r (shared c)).2 |}.
Proof.
  intros Hth. destruct c as [ths self]. cbn [threads shared] in *.
  assert (i < length ths)%nat as Hi by by eapply lookup_lt_Some.
  unfold serve. rewrite check_limit_eq. cbv zeta.
  unfold whole_call. cbn [replicate].
  do 2 thread_step. rewrite prune_ensure_window.
  thread_step. unfold exceeded. rewrite window_set_window.
  case_bool_decide as Hfull; cbn [fst snd]; rewrite ?list_insert_insert_eq.
  - by do 3 thread_step.
  - do 3 thread_step. unfold record_request.
    by rewrite window_save, !window_set_window, set_window_set_window.
Qed.

Lemma one_slot_left_sym self r1 r2 :
  one_slot_left self r1 r2 → one_slot_left self r2 r1.
Proof.
  intros (Hu & Ht & H12 & H21 & Hw & Hlen).
  unfold one_slot_left. rewrite <-Hu, <-Ht.
  split_and!; try done.
  eapply Forall_impl; [exact Hw|]. simpl. tauto.
Qed.

(** Of two whole calls that meet one free slot, the first is admitted and
    the second is rejected. *)
Lemma first_takes_the_slot self r1 r2 :
  one_slot_left self r1 r2 →
  (serve r1 self).1.1 = true ∧
  (serve r2 (serve r1 self).2).1.1 = false ∧
  Z.of_nat
    (length (window (serve r2 (serve r1 self).2).2 (r_username r1)))
  = limit_of (r_tier r1).
Proof.
  intros (Hu & Ht & H12 & H21 & Hw & Hlen). unfold serve.
  rewrite <-Hu, <-Ht.
  set (w := window self (r_username r1)) in *.
  assert (fresh (r_now r1 - timedelta_hours 1) w = w) as Hw1.
  { apply fresh_all. eapply Forall_impl; [exact Hw|]. simpl. tauto. }
  rewrite check_limit_admits; fold w; rewrite Hw1; [|lia].
  cbn [fst snd].
  set (self1 := _save_limits (set_window (r_username r1) (w ++ [r_now r1]) self)).
  assert (window self1 (r_username r1) = w ++ [r_now r1]) as Hself1.
  { subst self1. by rewrite window_save, window_set_window. }
  assert (fresh (r_now r2 - timedelta_hours 1) (w ++ [r_now r1])
          = w ++ [r_now r1]) as Hw2.
  { apply fresh_all, Forall_app. split.
    - eapply Forall_impl; [exact Hw|]. simpl. tauto.
    - by constructor. }
  rewrite check_limit_rejects; rewrite Hself1, Hw2;
    [|rewrite length_app; simpl; lia].
  cbn [fst snd]. rewrite window_set_window, length_app. simpl.
  split_and!; [done|done|lia].
Qed.

(** C2, as the code has it: [check_limit] takes no lock, and its
    read-prune-compare-append sequence is one unit only when no statement
    of another call runs in between.  Two calls for the same user that
    meet one free slot and run one whole call after the other, in either
    order, behave as two calls of [check_limit] in that order: the first
    is admitted, the second is rejected, and the window ends with
    [limit] timestamps. *)
Theorem serial_checks_admit_exactly_one self r1 r2 :
  one_slot_left self r1 r2 →
  let c12 := run (whole_call 0 ++ whole_call 1) (start self r1 r2) in
  let c21 := run (whole_call 1 ++ whole_call 0) (start self r1 r2) in
  (outcome c12 0 = Some (serve r1 self).1 ∧
   outcome c12 1 = Some (serve r2 (serve r1 self).2).1 ∧
   shared c12 = (serve r2 (serve r1 self).2).2 ∧
   admitted c12 0 = true ∧ admitted c12 1 = false ∧
   Z.of_nat (length (window (shared c12) (r_username r1)))
   = limit_of (r_tier r1)) ∧
  (outcome c21 1 = Some (serve r2 self).1 ∧
   outcome c21 0 = Some (serve r1 (serve r2 self).2).1 ∧
   shared c21 = (serve r1 (serve r2 self).2).2 ∧
   admitted c21 1 = true ∧ admitted c21 0 = false ∧
   Z.of_nat (length (window (shared c21) (r_username r1)))
   = limit_of (r_tier r1)).
Proof.
  intros Hslot c12 c21. split.
  - subst c12. unfold start.
    rewrite run_app, (run_whole_call _ 0%nat r1) by done.
    rewrite (run_whole_call _ 1%nat r2) by done.
    apply first_takes_the_slot in Hslot as (Hfirst & Hsecond & Hlen).
    unfold admitted, outcome. cbn [threads shared list_insert lookup
      list_lookup goto th_pc call th_request].
    destruct (serve r1 self) as [[ok1 msg1] self1]. cbn [fst snd] in *.
    destruct (serve r2 self1) as [[ok2 msg2] self2].
    simpl in *. by subst.
  - subst c21. unfold start.
    rewrite run_app, (run_whole_call _ 1%nat r2) by done.
    rewrite (run_whole_call _ 0%nat r1) by done.
    pose proof Hslot as (Hu & Ht & _).
    apply one_slot_left_sym, first_takes_the_slot in Hslot
      as (Hfirst & Hsecond & Hlen).
    rewrite <-Hu, <-Ht in Hlen.
    unfold admitted, outcome. cbn [threads shared list_insert lookup
      list_lookup goto th_pc call th_request].
    destruct (serve r2 self) as [[ok2 msg2] self2]. cbn [fst snd] in *.
    destruct (serve r1 self2) as [[ok1 msg1] self1].
    simpl in *. by subst.
Qed.

Lemma serial_checks_admit_exactly_one_witness :
  let self :=
    {| limits := {[ "ann" := [1; 2; 3; 4; 5; 6; 7; 8; 9] ]};
       limits_file := None |} in
  let r1 := mk_request 10 "ann" "guest" in
  let r2 := mk_request 11 "ann" "guest" in
  let c12 := run (whole_call 0 ++ whole_call 1) (start self r1 r2) in
  let c21 := run (whole_call 1 ++ whole_call 0) (start self r1 r2) in
  (outcome c12 0 = Some (serve r1 self).1 ∧
   outcome c12 1 = Some (serve r2 (serve r1 self).2).1 ∧
   shared c12 = (serve r2 (serve r1 self).2).2 ∧
   admitted c12 0 = true ∧ admitted c12 1 = false ∧
   Z.of_nat (length (window (shared c12) (r_username r1)))
   = limit_of (r_tier r1)) ∧
  (outcome c21 1 = Some (serve r2 self).1 ∧
   outcome c21 0 = Some (serve r1 (serve r2 self).2).1 ∧
   shared c21 = (serve r1 (serve r2 self).2).2 ∧
   admitted c21 1 = true ∧ admitted c21 0 = false ∧
   Z.of_nat (length (window (shared c21) (r_username r1)))
   = limit_of (r_tier r1)).
Proof.
  intros self r1 r2.
  apply (serial_checks_admit_exactly_one self r1 r2).
  unfold one_slot_left, timedelta_hours. split_and!; try reflexivity.
  repeat constructor; lia.
Defined.

(** C2 fails on the code: a guest has nine fresh timestamps, so one slot
    is left.  Two calls run their first three statements one after the
    other: both compare the count 9 with the limit 10 before either has
    appended.  Both then append and return [True]; the window ends with
    11 timestamps, and the second answer reports a remaining quota of
    -1. *)
Lemma interleaved_checks_both_admitted :
  let self :=
    {| limits := {[ "ann" := [1; 2; 3; 4; 5; 6; 7; 8; 9] ]};
       limits_file := None |} in
  let r1 := mk_request 10 "ann" "guest" in
  let r2 := mk_request 11 "ann" "guest" in
  let c := run [0; 0; 0; 1; 1; 1; 0; 0; 0; 1; 1; 1]%nat (start self r1 r2) in
  one_slot_left self r1 r2 ∧
  outcome c 0 = Some (true, "Remaining: 0/10") ∧
  outcome c 1 = Some (true, "Remaining: -1/10") ∧
  admitted c 0 = true ∧ admitted c 1 = true ∧
  window (shared c) "ann" = [1; 2; 3; 4; 5; 6; 7; 8; 9; 10; 11] ∧
  limit_of "guest" = 10.
Proof.
  intros self r1 r2 c. split.
  - unfold one_slot_left, timedelta_hours. split_and!; try reflexivity.
    repeat constructor; lia.
  - by vm_compute.
Qed.

(** C10 fails on the code for calls that overlap.  A guest is always
    checked with the tier "guest" and has nine timestamps in the window,
    which is within the limit of 10.  Two checks run their first three
    statements one after the other, so that both compare the count 9
    with the limit before either appends.  When both have returned the
    window holds 11 timestamps, one more than the limit. *)
Lemma interleaved_checks_overfill_window :
  let self :=
    {| limits := {[ "ann" := [1; 2; 3; 4; 5; 6; 7; 8; 9] ]};
       limits_file := None |} in
  let r1 := mk_request 10 "ann" "guest" in
  let r2 := mk_request 11 "ann" "guest" in
  let c := run [0; 0; 0; 1; 1; 1; 0; 0; 0; 1; 1; 1]%nat (start self r1 r2) in
  Z.of_nat (length (window self "ann")) ≤ limit_of "guest" ∧
  is_Some (outcome c 0) ∧ is_Some (outcome c 1) ∧
  limit_of "guest" = 10 ∧
  length (window (shared c) "ann") = 11%nat ∧
  ¬ Z.of_nat (length (window (shared c) "ann")) ≤ limit_of "guest".
Proof.
  intros self r1 r2 c. split_and!.
  - vm_compute. discriminate.
  - by eexists.
  - by eexists.
  - reflexivity.
  - reflexivity.
  - vm_compute. intros Hle. by apply Hle.
Qed.

End threads.

(** ** Registration and authentication *)

Section user_manager.
Import UserManager.
Context `{Bcrypt}.
Implicit Types (self : t) (username password email : string).

Lemma register_user_new gensalt now username password email self :
  users self !! username = None →
  register_user gensalt now username password email self
  = ((true, "Registration successful"),
     _save_users
       (set_user username
          {| Account.password := hashpw password gensalt;
             Account.email := email;
             Account.tier := "user";
             Account.created_at := now;
             Account.api_key := None |} self)).
Proof.
  intros Hnew. unfold register_user, mbind, State_bind, get.
  case_decide as Hin; [|done].
  rewrite Hnew in Hin. by destruct Hin.
Qed.

Lemma register_user_taken gensalt now username password email self :
  is_Some (users self !! username) →
  register_user gensalt now username password email self
  = ((false, "Username already exists"), self).
Proof.
  intros Hin. unfold register_user, mbind, State_bind, get.
  by case_decide.
Qed.

Lemma authenticate_user_unknown username password self :
  users self !! username = None →
  authenticate_user username password self = (false, self).
Proof.
  intros Hnew. unfold authenticate_user, mbind, State_bind, get.
  by rewrite Hnew.
Qed.

Lemma authenticate_user_known username password account self :
  users self !! username = Some account →
  authenticate_user username password self
  = (checkpw password (Account.password account), self).
Proof.
  intros Hin. unfold authenticate_user, mbind, State_bind, get.
  by rewrite Hin.
Qed.

(** C3: registering a username that has no account succeeds and stores
    the account; registering the same username again, with whatever
    password and e-mail, fails with "Username already exists" and leaves
    the manager, its accounts and [users.json] as they were.  With the
    original password, [authenticate_user] returns [False] before the
    first registration and [True] after it, also after the failed
    second one.  The same holds for a manager that is created anew from
    [users.json] after the first registration, as the pages do. *)
Theorem register_twice_conflict_then_authenticate
    self gensalt1 now1 gensalt2 now2 username password email
    password' email' :
  bcrypt_sound →
  users self !! username = None →
  let '(first, self1) :=
    register_user gensalt1 now1 username password email self in
  let '(second, self2) :=
    register_user gensalt2 now2 username password' email' self1 in
  first = (true, "Registration successful") ∧
  second = (false, "Username already exists") ∧
  self2 = self1 ∧
  users self1 !! username
  = Some {| Account.password := hashpw password gensalt1;
            Account.email := email;
            Account.tier := "user";
            Account.created_at := now1;
            Account.api_key := None |} ∧
  users_file self1 = Some (users self1) ∧
  authenticate_user username password self = (false, self) ∧
  authenticate_user username password self1 = (true, self1) ∧
  authenticate_user username password self2 = (true, self2) ∧
  (let reloaded := init (users_file self1) in
   register_user gensalt2 now2 username password' email' reloaded
   = ((false, "Username already exists"), reloaded) ∧
   authenticate_user username password reloaded = (true, reloaded)).
Proof.
  intros Hsound Hnew.
  rewrite register_user_new by done.
  set (account := Account.mk _ _ _ _ _).
  set (self1 := _save_users (set_user username account self)).
  assert (users self1 !! username = Some account) as Hstored.
  { subst self1. simpl. apply lookup_insert_eq. }
  rewrite register_user_taken by by rewrite Hstored.
  rewrite (authenticate_user_unknown _ _ self) by done.
  rewrite (authenticate_user_known _ _ account self1) by done.
  assert (users (init (users_file self1)) !! username = Some account)
    as Hreloaded by done.
  cbv zeta.
  rewrite (register_user_taken _ _ _ _ _ (init _)) by by rewrite Hreloaded.
  rewrite (authenticate_user_known _ _ account (init _)) by done.
  subst account. cbn [Account.password]. rewrite Hsound. done.
Qed.

End user_manager.

Lemma register_twice_conflict_then_authenticate_witness :
  let self := UserManager.init None in
  let '(first, self1) :=
    UserManager.register_user (H := StandIn.bcrypt) () 7
      "ann" "correct horse" "ann@example.org" self in
  let '(second, self2) :=
    UserManager.register_user (H := StandIn.bcrypt) () 9
      "ann" "battery staple" "other@example.org" self1 in
  first = (true, "Registration successful") ∧
  second = (false, "Username already exists") ∧
  self2 = self1 ∧
  UserManager.users self1 !! "ann"
  = Some {| Account.password :=
              hashpw (Bcrypt := StandIn.bcrypt) "correct horse" ();
            Account.email := "ann@example.org";
            Account.tier := "user";
            Account.created_at := 7;
            Account.api_key := None |} ∧
  UserManager.users_file self1 = Some (UserManager.users self1) ∧
  UserManager.authenticate_user (H := StandIn.bcrypt) "ann" "correct horse"
    self = (false, self) ∧
  UserManager.authenticate_user (H := StandIn.bcrypt) "ann" "correct horse"
    self1 = (true, self1) ∧
  UserManager.authenticate_user (H := StandIn.bcrypt) "ann" "correct horse"
    self2 = (true, self2) ∧
  (let reloaded := UserManager.init (UserManager.users_file self1) in
   UserManager.register_user (H := StandIn.bcrypt) () 9
     "ann" "battery staple" "other@example.org" reloaded
   = ((false, "Username already exists"), reloaded) ∧
   UserManager.authenticate_user (H := StandIn.bcrypt) "ann" "correct horse"
     reloaded = (true, reloaded)).
Proof.
  intros self.
  apply (register_twice_conflict_then_authenticate (H := StandIn.bcrypt)
           self () 7 () 9 "ann" "correct horse" "ann@example.org"
           "battery staple" "other@example.org").
  - intros password s. simpl. by apply bool_decide_eq_true_2.
  - reflexivity.
Defined.

(** ** Slices and file names *)

Section python_facts.

Lemma slice_from_negative {A} (n : nat) (l : list A) :
  (0 < n)%nat →
  Py.slice_from (- Z.of_nat n) l = last_entries n l.
Proof.
  intros Hn. unfold Py.slice_from, last_entries.
  rewrite bool_decide_eq_true_2 by lia. f_equal. lia.
Qed.

Lemma slice_from_zero {A} (l : list A) : Py.slice_from 0 l = l.
Proof.
  unfold Py.slice_from. rewrite bool_decide_eq_false_2 by lia.
  by rewrite Z.min_l by lia.
Qed.

Lemma last_entries_short {A} (n : nat) (l : list A) :
  (length l ≤ n)%nat → last_entries n l = l.
Proof.
  intros Hle. unfold last_entries.
  assert (length l - n = 0)%nat as -> by lia. done.
Qed.

Lemma length_last_entries {A} (n : nat) (l : list A) :
  length (last_entries n l) = (length l `min` n)%nat.
Proof. unfold last_entries. rewrite length_drop. lia. Qed.

Lemma last_entries_suffix {A} (n : nat) (l : list A) :
  last_entries n l `suffix_of` l.
Proof. apply suffix_drop. Qed.

(** Cutting to the last [n] before appending loses nothing that a cut
    after appending would keep. *)
Lemma last_entries_app {A} (n : nat) (l k : list A) :
  last_entries n (last_entries n l ++ k) = last_entries n (l ++ k).
Proof.
  destruct (decide (length l ≤ n)%nat) as [Hle|Hgt].
  { by rewrite (last_entries_short n l). }
  unfold last_entries.
  rewrite !length_app, length_drop, !drop_app, drop_drop, length_drop.
  f_equal; f_equal; lia.
Qed.

Lemma string_length_app (s1 s2 : string) :
  String.length (s1 +:+ s2) = (String.length s1 + String.length s2)%nat.
Proof. induction s1 as [|a s1 IH]; simpl; [done|]. by rewrite IH. Qed.

Lemma string_app_inj_r (s1 s2 suffix : string) :
  s1 +:+ suffix = s2 +:+ suffix → s1 = s2.
Proof.
  revert s2. induction s1 as [|a s1 IH]; intros [|b s2] Heq; simpl in *.
  - done.
  - apply (f_equal String.length) in Heq.
    rewrite !string_length_app in Heq. simpl in Heq. lia.
  - apply (f_equal String.length) in Heq.
    rewrite !string_length_app in Heq. simpl in Heq. lia.
  - injection Heq as -> Heq. f_equal. by apply IH.
Qed.

Lemma len_str_prefix (n : nat) (s : string) :
  Py.len (Py.str_prefix n s) = (n `min` Py.len s)%nat.
Proof.
  revert n. induction s as [|a s IH]; intros n; cbn [Py.str_prefix Py.len].
  - lia.
  - destruct (Py.continuation_byte a) eqn:Ha.
    + cbn [Py.len]. rewrite Ha. apply IH.
    + destruct n as [|n]; cbn [Py.len]; [done|]. by rewrite Ha, IH.
Qed.


(** A text has at most as many characters as bytes. *)
Lemma len_le_length (s : string) : (Py.len s ≤ String.length s)%nat.
Proof.
  induction s as [|a s IH]; simpl; [done|].
  destruct (Py.continuation_byte a); lia.
Qed.

(** *** Paths of plain usernames *)

Lemma contains_slash_cons (a : ascii) (s : string) :
  contains "/" (String a s) = false →
  a ≠ "/"%char ∧ contains "/" s = false.
Proof.
  cbn [contains String.prefix]. intros Hno.
  apply orb_false_iff in Hno as [Hhead Hrest]. split; [|done].
  intros ->. destruct s; discriminate.
Qed.

Lemma split_slash_plain (s : string) :
  contains "/" s = false → Py.split_slash s = [s].
Proof.
  induction s as [|a s IH]; [done|].
  intros [Ha Hs]%contains_slash_cons. cbn [Py.split_slash].
  rewrite bool_decide_eq_false_2 by done. by rewrite IH.
Qed.

Lemma contains_slash_app (s1 s2 : string) :
  contains "/" s1 = false → contains "/" s2 = false →
  contains "/" (s1 +:+ s2) = false.
Proof.
  intros H1 H2. induction s1 as [|a s1 IH]; [done|].
  apply contains_slash_cons in H1 as [Ha H1].
  change (contains "/" (String a (s1 +:+ s2)) = false).
  cbn [contains String.prefix].
  rewrite IH by done. rewrite orb_false_r.
  destruct (ascii_dec "/" a) as [<-|_]; [done|]. done.
Qed.

Lemma has_null_app (s1 s2 : string) :
  Py.has_null (s1 +:+ s2) = Py.has_null s1 || Py.has_null s2.
Proof.
  induction s1 as [|a s1 IH]; [done|].
  change (Py.has_null (String a (s1 +:+ s2))
          = Py.has_null (String a s1) || Py.has_null s2).
  cbn [Py.has_null]. by rewrite IH, orb_assoc.
Qed.

Lemma is_absolute_plain (s1 s2 : string) :
  contains "/" (s1 +:+ s2) = false → Py.is_absolute (s1 +:+ s2) = false.
Proof.
  unfold Py.is_absolute. destruct (s1 +:+ s2) as [|a s]; [done|].
  intros [Ha _]%contains_slash_cons. cbn [String.prefix].
  by destruct (ascii_dec "/" a) as [<-|_].
Qed.

(** The history of a plain username is the file [username.json] of the
    directory. *)
Lemma history_file_plain username :
  plain username →
  HistoryManager.history_file username
  = HistoryManager.file_of (username +:+ ".json").
Proof.
  intros (Hslash & Hnull & Hlen). unfold HistoryManager.history_file.
  assert (contains "/" (username +:+ ".json") = false) as Hname
    by by apply contains_slash_app.
  rewrite has_null_app, Hnull.
  assert (Py.has_null ".json" = false) as -> by reflexivity. cbn [orb].
  rewrite bool_decide_eq_false_2
    by (rewrite string_length_app; simpl; lia).
  rewrite is_absolute_plain by done.
  unfold Py.parts. rewrite split_slash_plain by done.
  rewrite filter_cons_True; [done|].
  split; intros Heq; apply (f_equal String.length) in Heq;
    rewrite string_length_app in Heq; simpl in Heq; lia.
Qed.

(** Two plain usernames have the same file only if they are the same. *)
Lemma history_file_plain_inj username username' :
  plain username → plain username' →
  HistoryManager.history_file username
  = HistoryManager.history_file username' →
  username = username'.
Proof.
  intros Hplain Hplain'. rewrite !history_file_plain by done.
  intros [= Heq]. by apply string_app_inj_r in Heq.
Qed.

End python_facts.

(** ** History *)

Section history_manager.
Import HistoryManager.
Implicit Types (dir : t) (username file : string) (c : call).

Lemma file_name_Some username file :
  file_name username = Some file ↔ history_file username = file_of file.
Proof.
  unfold file_name. destruct (history_file username); split; congruence.
Qed.

Lemma add_entry_eq c dir :
  append c dir
  = match history_file (c_username c) with
    | file_of name =>
        (Returns (),
         <[name := last_entries 100 (held dir name ++ [entry_of c])]> dir)
    | under subdirectory =>
        (Raises (open_error dir subdirectory (c_username c)), dir)
    | null_byte => (Raises ValueError_null_byte, dir)
    | outside => (Unknown, dir)
    end.
Proof.
  unfold append, add_entry, mbind, State_bind, get, put, held.
  destruct (history_file (c_username c)) as [name| | |]; try done.
  rewrite (slice_from_negative 100) by lia.
  by destruct (dir !! name).
Qed.

(** A call whose path leads to a file of the directory appends its entry
    to that file and keeps the last 100. *)
Lemma append_file c dir file :
  history_file (c_username c) = file_of file →
  append c dir
  = (Returns (),
     <[file := last_entries 100 (held dir file ++ [entry_of c])]> dir).
Proof. intros Hfile. by rewrite add_entry_eq, Hfile. Qed.

(** Any other call leaves the directory as it is. *)
Lemma append_no_file c dir :
  file_name (c_username c) = None → (append c dir).2 = dir.
Proof.
  unfold file_name. rewrite add_entry_eq.
  by destruct (history_file (c_username c)).
Qed.

Lemma held_append_same c dir file :
  file_name (c_username c) = Some file →
  held (append c dir).2 file
  = last_entries 100 (held dir file ++ [entry_of c]).
Proof.
  intros Hfile%file_name_Some. rewrite (append_file _ _ file) by done.
  unfold held at 1. cbn [snd]. by rewrite lookup_insert_eq.
Qed.

Lemma lookup_append_other c dir file :
  file_name (c_username c) ≠ Some file →
  (append c dir).2 !! file = dir !! file.
Proof.
  intros Hne. destruct (file_name (c_username c)) as [file'|] eqn:Hfile.
  - apply file_name_Some in Hfile. rewrite (append_file _ _ file') by done.
    cbn [snd]. rewrite lookup_insert_ne; [done|]. congruence.
  - by rewrite append_no_file.
Qed.

Lemma held_append_other c dir file :
  file_name (c_username c) ≠ Some file →
  held (append c dir).2 file = held dir file.
Proof. intros Hne. unfold held. by rewrite lookup_append_other. Qed.

Lemma held_after_calls (calls : list call) file : ∀ dir,
  (length (held dir file) ≤ 100)%nat →
  held (sequence (append <$> calls) dir).2 file
  = last_entries 100 (held dir file ++ appended calls file).
Proof.
  induction calls as [|c calls IH]; intros dir Hcap.
  { unfold appended. simpl. rewrite app_nil_r.
    by rewrite last_entries_short. }
  rewrite fmap_cons, sequence_cons.
  destruct (append c dir) as [answer dir1] eqn:Happend.
  specialize (IH dir1).
  destruct (sequence (append <$> calls) dir1) as [answers dir2].
  cbn [snd] in *.
  assert (dir1 = (append c dir).2) as Hdir1 by by rewrite Happend.
  unfold appended in *.
  destruct (decide (file_name (c_username c) = Some file)) as [Heq|Hne].
  - rewrite filter_cons_True by done. rewrite fmap_cons.
    assert (held dir1 file
            = last_entries 100 (held dir file ++ [entry_of c]))
      as Hheld.
    { rewrite Hdir1. by apply held_append_same. }
    rewrite IH, Hheld.
    + by rewrite last_entries_app, <-app_assoc.
    + rewrite Hheld, length_last_entries. lia.
  - rewrite filter_cons_False by done.
    assert (held dir1 file = held dir file) as Hheld.
    { rewrite Hdir1. by apply held_append_other. }
    rewrite IH, Hheld; [done|]. by rewrite Hheld.
Qed.

Lemma get_history_eq username limit dir :
  get_history username limit dir
  = (match history_file username with
     | file_of name =>
         match dir !! name with
         | None => Returns []
         | Some history => Returns (Py.slice_from (- limit) history)
         end
     | under _ | null_byte => Returns []
     | outside => Unknown
     end, dir).
Proof.
  unfold get_history, mbind, State_bind, get.
  destruct (history_file username) as [name| | |]; try done.
  by destruct (dir !! name).
Qed.

(** For a positive limit [get_history] returns the last [limit] entries
    of the stored history, oldest first, and changes nothing. *)
Lemma get_history_positive username (limit : Z) dir :
  0 < limit →
  get_history username limit dir
  = (last_entries (Z.to_nat limit) <$> stored dir username, dir).
Proof.
  intros Hpos. rewrite get_history_eq. unfold stored, held. f_equal.
  destruct (history_file username) as [name| | |]; try done.
  destruct (dir !! name) as [history|]; simpl.
  - rewrite <-(Z2Nat.id limit) at 1 by lia.
    by rewrite slice_from_negative by lia.
  - by rewrite last_entries_short by (simpl; lia).
Qed.

Lemma get_history_file username (limit : Z) dir file :
  0 < limit →
  history_file username = file_of file →
  get_history username limit dir
  = (Returns (last_entries (Z.to_nat limit) (held dir file)), dir).
Proof.
  intros Hpos Hfile. rewrite get_history_positive by done.
  unfold stored. by rewrite Hfile.
Qed.

(** Whatever the limit, [get_history] leaves the application state as
    it is. *)
Lemma get_history_reads_only username (limit : Z) (app : App.t) :
  (App.on_history_dir (get_history username limit) app).2 = app.
Proof.
  unfold App.on_history_dir. rewrite get_history_eq. by destruct app.
Qed.

(** C4, as amended: take a username whose path leads to a file of the
    history directory, as every username without "/" does, and let the
    file not exist yet.  After any sequence of [add_entry] calls that
    stay in the directory, the file holds the last 100 of the entries
    appended to it, in the order of the calls: a suffix of what was
    appended, of length [min n 100], and it is what [get_history]
    returns to the user.  After 101 appends it holds exactly the 100
    entries that followed the first: the one evicted is the oldest.  The
    entries appended to the file are those of all calls whose username
    leads to it. *)
Theorem history_keeps_the_last_100 dir (calls : list call) username file :
  history_file username = file_of file →
  Forall (λ c, history_file (c_username c) ≠ outside) calls →
  dir !! file = None →
  let dir' := (sequence (append <$> calls) dir).2 in
  let history := held dir' file in
  get_history username 100 dir' = (Returns history, dir') ∧
  history = last_entries 100 (appended calls file) ∧
  history `suffix_of` appended calls file ∧
  length history = (length (appended calls file) `min` 100)%nat ∧
  ∀ first rest,
    appended calls file = first :: rest → length rest = 100%nat →
    history = rest ∧ length history = 100%nat.
Proof.
  intros Hfile _ Hnone dir' history.
  assert (history = last_entries 100 (appended calls file)) as Hhistory.
  { subst history dir'. rewrite held_after_calls; unfold held at 1;
      rewrite Hnone; [done|]. simpl. lia. }
  split_and!.
  - rewrite (get_history_file _ _ _ file) by done. fold history.
    rewrite last_entries_short; [done|].
    rewrite Hhistory, length_last_entries. lia.
  - done.
  - rewrite Hhistory. apply last_entries_suffix.
  - rewrite Hhistory. apply length_last_entries.
  - intros first rest Happended Hlen. rewrite Hhistory, Happended.
    unfold last_entries. simpl. rewrite Hlen.
    by replace (S 100 - 100)%nat with 1%nat by lia.
Qed.

Lemma history_keeps_the_last_100_witness :
  let calls := calls_of "ann" 101 in
  let dir' := (sequence (append <$> calls) ∅).2 in
  let history := held dir' "ann.json" in
  get_history "ann" 100 dir' = (Returns history, dir') ∧
  history = last_entries 100 (appended calls "ann.json") ∧
  history `suffix_of` appended calls "ann.json" ∧
  length history = (length (appended calls "ann.json") `min` 100)%nat ∧
  ∀ first rest,
    appended calls "ann.json" = first :: rest → length rest = 100%nat →
    history = rest ∧ length history = 100%nat.
Proof.
  intros calls.
  apply (history_keeps_the_last_100 ∅ calls "ann" "ann.json").
  - reflexivity.
  - subst calls. unfold calls_of. apply Forall_fmap, Forall_forall.
    intros i _. simpl. vm_compute. discriminate.
  - reflexivity.
Defined.

(** C4 fails on the code for usernames that are not file names.  The
    path of "a/b" lies below a subdirectory that does not exist: each of
    101 calls of [add_entry] raises [FileNotFoundError] from [open],
    nothing is stored and the user's history stays empty.  And "./ann"
    leads to the file of "ann": an entry appended for "./ann" is in the
    history of "ann", who appended nothing. *)
Lemma history_of_path_username_is_not_the_appended :
  (let '(answers, dir) := sequence (append <$> calls_of "a/b" 101) ∅ in
   answers
   = replicate 101
       (Raises (FileNotFoundError "user_data/history/a/b.json")) ∧
   dir = ∅ ∧
   get_history "a/b" 100 dir = (Returns [], dir)) ∧
  (let dir := (add_entry 5 "./ann" "sentiment" "q" "r" ∅).2 in
   appended [mk_call 5 "./ann" "sentiment" "q" "r"] "ann.json"
   = [HistoryEntry.mk 5 "sentiment" "q" "r"] ∧
   get_history "ann" 100 dir
   = (Returns [HistoryEntry.mk 5 "sentiment" "q" "r"], dir)).
Proof. split; by vm_compute. Qed.

(** C7 fails on the code for the limit 0: [history[-0:]] is the whole
    list, so [get_history(username, 0)] returns every stored entry
    instead of none.  Here three entries are stored and all three come
    back. *)
Theorem get_history_limit_zero_returns_everything :
  (∀ dir username,
     get_history username 0 dir = (stored dir username, dir)) ∧
  let dir := (sequence (append <$> calls_of "ann" 3) ∅).2 in
  ∃ history,
    (get_history "ann" 0 dir).1 = Returns history ∧
    history = entry_of <$> calls_of "ann" 3 ∧
    length history = 3%nat.
Proof.
  split.
  - intros dir username. rewrite get_history_eq. unfold stored, held.
    f_equal. destruct (history_file username) as [name| | |]; try done.
    destruct (dir !! name) as [history|]; simpl; [|done].
    by rewrite slice_from_zero.
  - eexists. split; [by vm_compute|]. by split.
Qed.

End history_manager.

(** ** Analytics *)

Section counting.
Context `{Countable K}.
Implicit Types (l : list K) (counts : gmap K nat).

Lemma occurrences_cons (k x : K) l :
  occurrences k (x :: l)
  = ((if decide (x = k) then 1 else 0) + occurrences k l)%nat.
Proof.
  unfold occurrences. rewrite filter_cons. by case_decide.
Qed.

Lemma value_counts_lookup l (k : K) :
  value_counts l !! k
  = if decide (occurrences k l = 0%nat) then None
    else Some (occurrences k l).
Proof.
  induction l as [|x l IH]; [done|].
  rewrite occurrences_cons. cbn [value_counts foldr].
  fold (value_counts l).
  destruct (decide (x = k)) as [->|Hne].
  - rewrite lookup_insert_eq, IH.
    case_decide as Hzero; simpl; [by rewrite Hzero|done].
  - by rewrite lookup_insert_ne.
Qed.

Lemma dom_value_counts l : dom (value_counts l) = list_to_set l.
Proof.
  induction l as [|x l IH]; simpl.
  - apply dom_empty_L.
  - fold (value_counts l). by rewrite dom_insert_L, IH.
Qed.

Lemma total_count_insert_new counts (k : K) (n : nat) :
  counts !! k = None →
  total_count (<[k := n]> counts) = (n + total_count counts)%nat.
Proof.
  intros Hnew. unfold total_count.
  apply (map_fold_insert_L (λ _ n acc, (n + acc)%nat)); [|done].
  intros. lia.
Qed.

Lemma total_count_insert counts (k : K) (n : nat) :
  total_count (<[k := n]> counts)
  = (n + total_count counts - default 0%nat (counts !! k))%nat.
Proof.
  destruct (counts !! k) as [m|] eqn:Hk; simpl.
  - rewrite <-(insert_delete_id counts k m) at 2 by done.
    rewrite <-insert_delete_eq.
    rewrite !total_count_insert_new by apply lookup_delete_eq. lia.
  - rewrite total_count_insert_new by done. lia.
Qed.

(** The counts of the values of a column add up to its length. *)
Lemma total_count_value_counts l :
  total_count (value_counts l) = length l.
Proof.
  induction l as [|x l IH]; [done|].
  cbn [value_counts foldr length]. fold (value_counts l).
  rewrite total_count_insert, IH. lia.
Qed.

(** Three different values occur at most [length l] times in all. *)
Lemma occurrences_three (a b c : K) l :
  a ≠ b → a ≠ c → b ≠ c →
  (occurrences a l + occurrences b l + occurrences c l ≤ length l)%nat.
Proof.
  intros Hab Hac Hbc. induction l as [|x l IH]; [done|].
  rewrite !occurrences_cons. simpl.
  repeat case_decide; subst; try done; lia.
Qed.

End counting.

Section analytics.
Import HistoryManager.
Implicit Types (dir : t) (username : string) (week_now month_now : datetime).

Lemma last_entries_nil_inv {A} (n : nat) (l : list A) :
  (0 < n)%nat → last_entries n l = [] → l = [].
Proof.
  intros Hn Hnil. apply (f_equal length) in Hnil.
  rewrite length_last_entries in Hnil.
  destruct l; [done|]. cbn [length] in Hnil. lia.
Qed.

Lemma to_datetime_Returns (column timestamp : list datetime) :
  to_datetime column = Returns timestamp → timestamp = column.
Proof.
  unfold to_datetime. destruct column as [|first column]; [congruence|].
  destruct (forallb _ _); [|done]. destruct (forallb _ _); [|done].
  congruence.
Qed.

(** [get_analytics] reads the last 1000 stored entries and writes
    nothing. *)
Lemma get_analytics_eq week_now month_now username dir file :
  history_file username = file_of file →
  get_analytics week_now month_now username dir
  = (match last_entries 1000 (held dir file) with
     | [] => Returns None
     | (_ :: _) as df =>
         match to_datetime (HistoryEntry.timestamp <$> df) with
         | Returns timestamp =>
             Returns (Some
               {| Analytics.total_queries := length df;
                  Analytics.tools_used :=
                    value_counts (HistoryEntry.tool <$> df);
                  Analytics.queries_by_date :=
                    value_counts (date_of <$> timestamp);
                  Analytics.last_7_days :=
                    length (filter (λ ts, week_now - timedelta_days 7 < ts)
                              timestamp);
                  Analytics.last_30_days :=
                    length (filter (λ ts, month_now - timedelta_days 30 < ts)
                              timestamp) |})
         | Raises e => Raises e
         | Unknown => Unknown
         end
     end, dir).
Proof.
  intros Hfile. unfold get_analytics. unfold mbind at 1.
  unfold State_bind at 1.
  rewrite (get_history_file _ _ _ file) by (done || lia).
  replace (Z.to_nat 1000) with 1000%nat by lia.
  destruct (last_entries _ _) as [|e df]; [done|].
  by destruct (to_datetime _).
Qed.

(** Without a file of the directory to read there is no summary. *)
Lemma get_analytics_no_file week_now month_now username dir :
  file_name username = None →
  get_analytics week_now month_now username dir
  = (match history_file username with
     | outside => Unknown
     | _ => Returns None
     end, dir).
Proof.
  unfold file_name, get_analytics. unfold mbind at 1.
  unfold State_bind at 1. rewrite get_history_eq.
  by destruct (history_file username).
Qed.

(** The summary of a history that pandas reads. *)
Lemma get_analytics_reads week_now month_now username dir file :
  history_file username = file_of file →
  held dir file ≠ [] →
  pandas_reads (HistoryEntry.timestamp <$> last_entries 1000 (held dir file)) →
  get_analytics week_now month_now username dir
  = (let df := last_entries 1000 (held dir file) in
     let timestamp := HistoryEntry.timestamp <$> df in
     Returns (Some
       {| Analytics.total_queries := length df;
          Analytics.tools_used := value_counts (HistoryEntry.tool <$> df);
          Analytics.queries_by_date := value_counts (date_of <$> timestamp);
          Analytics.last_7_days :=
            length (filter (λ ts, week_now - timedelta_days 7 < ts)
                      timestamp);
          Analytics.last_30_days :=
            length (filter (λ ts, month_now - timedelta_days 30 < ts)
                      timestamp) |}), dir).
Proof.
  intros Hfile Hne Hreads. rewrite (get_analytics_eq _ _ _ _ file) by done.
  cbv zeta. unfold pandas_reads in Hreads.
  destruct (last_entries 1000 (held dir file)) as [|e df] eqn:Hdf.
  { apply last_entries_nil_inv in Hdf; [done|lia]. }
  by rewrite Hreads.
Qed.

(** C6 fails on the code when a stored timestamp falls on a whole
    second.  [get_analytics] returns [None] exactly when the user has no
    stored history, and it changes nothing.  For a history of eight
    entries, five with tool "sentiment" and three with tool
    "summarization", whose timestamps fall on two calendar dates, it
    reports a total of 8, the per-tool counts
    [{sentiment: 5, summarization: 3}] and per-date counts with exactly
    two keys whose values add up to 8, provided [pd.to_datetime] reads
    the timestamps, as it reads those of [two_days_between_seconds].  In
    [two_days] the first entry was written on a whole second, without
    microseconds, and the next one with them: the history has the eight
    entries the claim describes and [get_analytics] raises
    [ValueError]. *)
Theorem get_analytics_raises_on_whole_second :
  (∀ week_now month_now dir username file,
     history_file username = file_of file →
     let history := held dir file in
     ((get_analytics week_now month_now username dir).1 = Returns None
      ↔ history = []) ∧
     (get_analytics week_now month_now username dir).2 = dir ∧
     (pandas_reads (HistoryEntry.timestamp <$> history) →
      length history = 8%nat →
      occurrences "sentiment" (HistoryEntry.tool <$> history) = 5%nat →
      occurrences "summarization" (HistoryEntry.tool <$> history) = 3%nat →
      size (list_to_set (C := gset Z)
              (date_of ∘ HistoryEntry.timestamp <$> history)) = 2%nat →
      ∃ analytics,
        (get_analytics week_now month_now username dir).1
        = Returns (Some analytics) ∧
        Analytics.total_queries analytics = 8%nat ∧
        Analytics.tools_used analytics
        = {[ "sentiment" := 5%nat; "summarization" := 3%nat ]} ∧
        size (Analytics.queries_by_date analytics) = 2%nat ∧
        total_count (Analytics.queries_by_date analytics) = 8%nat)) ∧
  (let dir := (sequence (append <$> two_days) ∅).2 in
   let history := held dir "ann.json" in
   history_file "ann" = file_of "ann.json" ∧
   length history = 8%nat ∧
   occurrences "sentiment" (HistoryEntry.tool <$> history) = 5%nat ∧
   occurrences "summarization" (HistoryEntry.tool <$> history) = 3%nat ∧
   size (list_to_set (C := gset Z)
           (date_of ∘ HistoryEntry.timestamp <$> history)) = 2%nat ∧
   isoformat_has_fraction ∘ HistoryEntry.timestamp <$> history
   = [false; true; true; false; true; true; true; true] ∧
   (get_analytics 172800000000 172800000001 "ann" dir).1
   = Raises ValueError_time_data) ∧
  (let dir := (sequence (append <$> two_days_between_seconds) ∅).2 in
   pandas_reads (HistoryEntry.timestamp <$> held dir "ann.json") ∧
   ∃ analytics,
     (get_analytics 172800000000 172800000001 "ann" dir).1
     = Returns (Some analytics) ∧
     Analytics.total_queries analytics = 8%nat ∧
     Analytics.tools_used analytics
     = {[ "sentiment" := 5%nat; "summarization" := 3%nat ]} ∧
     size (Analytics.queries_by_date analytics) = 2%nat ∧
     total_count (Analytics.queries_by_date analytics) = 8%nat).
Proof.
  assert (∀ week_now month_now dir username file,
     history_file username = file_of file →
     let history := held dir file in
     ((get_analytics week_now month_now username dir).1 = Returns None
      ↔ history = []) ∧
     (get_analytics week_now month_now username dir).2 = dir ∧
     (pandas_reads (HistoryEntry.timestamp <$> history) →
      length history = 8%nat →
      occurrences "sentiment" (HistoryEntry.tool <$> history) = 5%nat →
      occurrences "summarization" (HistoryEntry.tool <$> history) = 3%nat →
      size (list_to_set (C := gset Z)
              (date_of ∘ HistoryEntry.timestamp <$> history)) = 2%nat →
      ∃ analytics,
        (get_analytics week_now month_now username dir).1
        = Returns (Some analytics) ∧
        Analytics.total_queries analytics = 8%nat ∧
        Analytics.tools_used analytics
        = {[ "sentiment" := 5%nat; "summarization" := 3%nat ]} ∧
        size (Analytics.queries_by_date analytics) = 2%nat ∧
        total_count (Analytics.queries_by_date analytics) = 8%nat))
    as Hsummary.
  { intros week_now month_now dir username file Hfile history.
    split; [|split].
    - rewrite (get_analytics_eq _ _ _ _ file) by done. cbn [fst].
      fold history. split.
      + intros Hnone. apply (last_entries_nil_inv 1000); [lia|].
        destruct (last_entries _ _); [done|].
        by destruct (to_datetime _).
      + by intros ->.
    - by rewrite (get_analytics_eq _ _ _ _ file).
    - intros Hreads Hlen Hsentiment Hsummarization Hdates.
      assert (history ≠ []) as Hne by by destruct history.
      rewrite (get_analytics_reads _ _ _ _ file);
        fold history; rewrite ?last_entries_short by lia; try done.
      eexists. split; [done|]. cbn [Analytics.total_queries
        Analytics.tools_used Analytics.queries_by_date]. split_and!.
      + done.
      + apply map_eq. intros tool. rewrite value_counts_lookup.
        destruct (decide (tool = "sentiment")) as [->|Hne1].
        { rewrite Hsentiment. by rewrite lookup_insert_eq. }
        rewrite lookup_insert_ne by done.
        destruct (decide (tool = "summarization")) as [->|Hne2].
        { rewrite Hsummarization. by rewrite lookup_singleton_eq. }
        rewrite lookup_singleton_ne by done.
        pose proof (occurrences_three "sentiment" "summarization" tool
                      (HistoryEntry.tool <$> history)) as Hthree.
        rewrite length_fmap, Hsentiment, Hsummarization, Hlen in Hthree.
        rewrite decide_True; [done|].
        assert (occurrences tool (HistoryEntry.tool <$> history) ≤ 0)%nat
          by (apply (Nat.add_le_mono_l _ _ 8); apply Hthree; done).
        lia.
      + rewrite <-list_fmap_compose.
        by rewrite <-size_dom, dom_value_counts.
      + by rewrite total_count_value_counts, !length_fmap. }
  split; [done|]. split.
  - by vm_compute.
  - intros dir. split; [reflexivity|].
    apply (Hsummary 172800000000 172800000001 dir "ann" "ann.json");
      reflexivity.
Qed.

End analytics.

(** ** API keys *)

Section api_keys.
Import APIKeyManager.
Context `{Digest}.
Implicit Types (self : t) (username api_key : string).

Lemma generate_key_eq token now username self :
  generate_key token now username self
  = (format_key token,
     _save_keys
       (set_key (sha256_hexdigest (format_key token))
          {| KeyRecord.username := username; KeyRecord.created_at := now |}
          self)).
Proof. done. Qed.

Lemma get_user_by_key_eq api_key self :
  get_user_by_key api_key self
  = (KeyRecord.username <$> keys self !! sha256_hexdigest api_key, self).
Proof.
  unfold get_user_by_key, mbind, State_bind, get.
  by destruct (keys self !! sha256_hexdigest api_key).
Qed.

Lemma validate_key_eq api_key self :
  validate_key api_key self
  = (bool_decide (is_Some (keys self !! sha256_hexdigest api_key)), self).
Proof. done. Qed.

Lemma grant_eq (i : issue) self :
  grant i self
  = (format_key (i_bytes i),
     _save_keys
       (set_key (sha256_hexdigest (format_key (i_bytes i)))
          {| KeyRecord.username := i_username i;
             KeyRecord.created_at := i_now i |}
          self)).
Proof. done. Qed.

(** Every hash in the store was there before or is the hash of a key
    issued since. *)
Lemma keys_after_grants (issues : list issue) : ∀ self key_hash,
  let run := sequence (grant <$> issues) self in
  is_Some (keys run.2 !! key_hash) →
  is_Some (keys self !! key_hash) ∨
  ∃ k, k ∈ run.1 ∧ key_hash = sha256_hexdigest k.
Proof.
  induction issues as [|i issues IH]; intros self key_hash run Hin.
  { by left. }
  subst run. revert Hin. rewrite fmap_cons, sequence_cons, grant_eq.
  set (api_key := format_key (i_bytes i)) in *.
  set (self1 := _save_keys _) in *.
  specialize (IH self1 key_hash).
  destruct (sequence (grant <$> issues) self1) as [issued self2].
  cbn [fst snd] in *. intros Hin.
  destruct (IH Hin) as [Hbefore|(k & Hk & ->)].
  - subst self1. cbn [_save_keys set_key keys] in Hbefore.
    destruct (decide (sha256_hexdigest api_key = key_hash)) as [<-|Hne].
    + right. exists api_key. split; [apply list_elem_of_here|done].
    + left. by rewrite lookup_insert_ne in Hbefore.
  - right. exists k. split; [by apply list_elem_of_further|done].
Qed.

(** C5: a key that [generate_key] returns resolves at once to the user
    it was issued to, whatever the store held.  In a store that started
    empty, a string that was never issued resolves to [None], and so
    does the stored hash of an issued key presented as a key, as long
    as the string has the SHA-256 digest of no issued key (a collision
    of SHA-256 is the one way around this, and the code has no defence
    against it). *)
Theorem issued_key_resolves_and_others_do_not
    self token now username (issues : list issue) (raw : string) :
  (let '(api_key, self1) := generate_key token now username self in
   get_user_by_key api_key self1 = (Some username, self1) ∧
   validate_key api_key self1 = (true, self1)) ∧
  (let run := sequence (grant <$> issues) (init None) in
   raw ∉ run.1 →
   (∀ k, k ∈ run.1 → ¬ collide raw k) →
   get_user_by_key raw run.2 = (None, run.2) ∧
   validate_key raw run.2 = (false, run.2)) ∧
  (let run := sequence (grant <$> issues) (init None) in
   ∀ k, k ∈ run.1 →
     let stored_hash := sha256_hexdigest k in
     stored_hash ∉ run.1 →
     (∀ k', k' ∈ run.1 → ¬ collide stored_hash k') →
     get_user_by_key stored_hash run.2 = (None, run.2)).
Proof.
  assert (∀ candidate,
    let run := sequence (grant <$> issues) (init None) in
    candidate ∉ run.1 →
    (∀ k, k ∈ run.1 → ¬ collide candidate k) →
    keys run.2 !! sha256_hexdigest candidate = None) as Hunknown.
  { intros candidate run Hnew Hfree.
    destruct (keys run.2 !! sha256_hexdigest candidate) as [r|] eqn:Hin;
      [|done].
    destruct (keys_after_grants issues (init None)
                (sha256_hexdigest candidate)) as [Hbefore|(k & Hk & Heq)].
    - fold run. by rewrite Hin.
    - by destruct Hbefore.
    - fold run in Hk. destruct (Hfree k Hk). split; [|done].
      by intros ->. }
  split_and!.
  - rewrite generate_key_eq, get_user_by_key_eq, validate_key_eq.
    cbn [_save_keys set_key keys]. rewrite lookup_insert_eq.
    split; [done|]. by rewrite bool_decide_eq_true_2.
  - intros run Hnew Hfree.
    rewrite get_user_by_key_eq, validate_key_eq. subst run.
    rewrite (Hunknown raw Hnew Hfree).
    split; [done|]. by rewrite bool_decide_eq_false_2 by by intros [? ?].
  - intros run k Hk stored_hash Hnew Hfree.
    rewrite get_user_by_key_eq. subst run.
    by rewrite (Hunknown stored_hash Hnew Hfree).
Qed.

End api_keys.

Lemma issued_key_resolves_and_others_do_not_witness :
  let run :=
    sequence (APIKeyManager.grant (H := StandIn.digest) <$> two_issues)
      (APIKeyManager.init None) in
  run.1 = ["sk_ab"; "sk_cd"] ∧
  APIKeyManager.get_user_by_key (H := StandIn.digest) "sk_ab" run.2
  = (Some "ann", run.2) ∧
  APIKeyManager.get_user_by_key (H := StandIn.digest) "sk_zz" run.2
  = (None, run.2) ∧
  APIKeyManager.validate_key (H := StandIn.digest) "sk_zz" run.2
  = (false, run.2) ∧
  APIKeyManager.get_user_by_key (H := StandIn.digest) "#sk_ab" run.2
  = (None, run.2).
Proof.
  intros run.
  destruct (issued_key_resolves_and_others_do_not (H := StandIn.digest)
              (APIKeyManager.init None) [Byte.x61; Byte.x62] 1 "ann"
              two_issues "sk_zz") as (_ & Hraw & _).
  destruct (issued_key_resolves_and_others_do_not (H := StandIn.digest)
              (APIKeyManager.init None) [Byte.x61; Byte.x62] 1 "ann"
              two_issues "sk_zz") as (_ & _ & Hhash).
  assert (∀ raw k : string, ¬ collide (H := StandIn.digest) raw k) as Hfree.
  { intros raw k [Hne Heq]. simpl in Heq. by apply Hne, (inj (String.append "#")). }
  split_and!.
  - reflexivity.
  - reflexivity.
  - apply Hraw; [|by intros k _].
    by intros [?|[?|?%elem_of_nil]%elem_of_cons]%elem_of_cons.
  - apply Hraw; [|by intros k _].
    by intros [?|[?|?%elem_of_nil]%elem_of_cons]%elem_of_cons.
  - apply (Hhash "sk_ab"); [apply list_elem_of_here| |by intros k _].
    by intros [?|[?|?%elem_of_nil]%elem_of_cons]%elem_of_cons.
Defined.

(** ** Key validation reads only *)

Section validation_frame.
Import APIKeyManager.
Context `{Digest}.

Lemma on_api_manager_read {A} (m : State t A) (a : A) app :
  m (App.api_manager app) = (a, App.api_manager app) →
  App.on_api_manager m app = (a, app).
Proof.
  intros Hread. unfold App.on_api_manager. rewrite Hread.
  by destruct app.
Qed.

(** C8: [validate_key] and [get_user_by_key] change nothing.  Run on the
    application state, each returns the state it was given: the
    accounts, the API keys in memory and in [api_keys.json], the rate
    windows and the history are all as before, whatever the key string;
    and a second call with the same key returns what the first
    returned, namely whether the digest of the key is in the store, and
    for which user. *)
Theorem key_validation_changes_nothing (app : App.t) (api_key : string) :
  let '(valid1, app1) := App.on_api_manager (validate_key api_key) app in
  let '(valid2, app2) := App.on_api_manager (validate_key api_key) app1 in
  let '(user1, app3) :=
    App.on_api_manager (get_user_by_key api_key) app2 in
  let '(user2, app4) :=
    App.on_api_manager (get_user_by_key api_key) app3 in
  app1 = app ∧ app2 = app ∧ app3 = app ∧ app4 = app ∧
  valid2 = valid1 ∧ user2 = user1 ∧
  valid1
  = bool_decide
      (is_Some (keys (App.api_manager app) !! sha256_hexdigest api_key)) ∧
  user1
  = KeyRecord.username
      <$> keys (App.api_manager app) !! sha256_hexdigest api_key.
Proof.
  rewrite !(on_api_manager_read (validate_key api_key) _ app)
    by apply validate_key_eq.
  rewrite !(on_api_manager_read (get_user_by_key api_key) _ app)
    by apply get_user_by_key_eq.
  done.
Qed.

End validation_frame.

(** * Further properties *)

(** ** The rate limiter as a sliding window *)

Section sliding_window.
Import RateLimiter.
Implicit Types (self : t) (w : list datetime) (now : datetime).
Implicit Types (username tier : string).

Lemma fresh_fresh (c c' : datetime) w :
  c' ≤ c → fresh c (fresh c' w) = fresh c w.
Proof.
  intros Hle. unfold fresh. apply list_filter_filter_l. intros ts. lia.
Qed.

Lemma fresh_app (c : datetime) w1 w2 :
  fresh c (w1 ++ w2) = fresh c w1 ++ fresh c w2.
Proof. apply filter_app. Qed.

(** What a check leaves in the window: the pruned window, and the time of
    the check when it was admitted. *)
Lemma window_after_check now username tier self :
  window (check_limit now username tier self).2 username
  = fresh (now - timedelta_hours 1) (window self username)
    ++ (if (check_limit now username tier self).1.1 then [now] else []).
Proof.
  rewrite check_limit_eq. cbv zeta.
  case_bool_decide; cbn [fst snd];
    rewrite ?window_save, window_set_window; by rewrite ?app_nil_r.
Qed.

(** The answer of a check depends on the window of its user alone. *)
Lemma check_limit_answer_ext now username tier self self' :
  window self username = window self' username →
  (check_limit now username tier self).1
  = (check_limit now username tier self').1.
Proof.
  intros Hw. rewrite !check_limit_eq. cbv zeta. rewrite Hw.
  by case_bool_decide.
Qed.

(** Seen through any cutoff that is not before the cutoff of a past
    check, the window is the list of the admitted times. *)
Lemma window_tracks_admitted tier username (nows : list datetime) :
  ∀ self (admitted past : list datetime),
  (∀ c, Forall (λ t, t - timedelta_hours 1 ≤ c) past →
        fresh c (window self username) = fresh c admitted) →
  let run :=
    sequence ((λ now, check_limit now username tier) <$> nows) self in
  ∀ c, Forall (λ t, t - timedelta_hours 1 ≤ c) (past ++ nows) →
       fresh c (window run.2 username)
       = fresh c (admitted ++ admitted_times nows run.1).
Proof.
  induction nows as [|now nows IH]; intros self admitted past Hinv run c Hc.
  { subst run. simpl. rewrite !app_nil_r in *. by apply Hinv. }
  subst run. rewrite fmap_cons, sequence_cons.
  destruct (check_limit now username tier self) as [[ok msg] self1] eqn:Hcheck.
  specialize (IH self1 (admitted ++ (if ok then [now] else []))
                 (past ++ [now])).
  destruct (sequence _ self1) as [answers self2].
  cbn [fst snd admitted_times] in *.
  rewrite app_assoc. apply IH; [|by rewrite <-app_assoc].
  clear IH c Hc. intros c Hc.
  apply Forall_app in Hc as [Hpast Hnow].
  apply Forall_inv in Hnow. simpl in Hnow.
  pose proof (window_after_check now username tier self) as Hw.
  rewrite Hcheck in Hw. cbn [fst snd] in Hw.
  rewrite Hw, !fresh_app, fresh_fresh by done.
  by rewrite Hinv.
Qed.

(** X1: the limiter is a sliding window over the admitted requests.  For
    a user whose window starts empty, after any earlier checks with one
    tier, a check that is not earlier than those is admitted exactly when
    fewer than [limit] of the earlier admitted checks lie less than an
    hour before it; rejected checks do not count. *)
Theorem admitted_iff_fewer_than_limit_in_last_hour
    self username tier (earlier : list datetime) (now : datetime) :
  window self username = [] →
  Forall (λ t, t ≤ now) earlier →
  let run :=
    sequence ((λ t, check_limit t username tier) <$> earlier) self in
  let recent :=
    fresh (now - timedelta_hours 1) (admitted_times earlier run.1) in
  (check_limit now username tier run.2).1.1
  = bool_decide (Z.of_nat (length recent) < limit_of tier).
Proof.
  intros Hempty Hearlier run recent.
  pose proof (window_tracks_admitted tier username earlier self [] []) as Hinv.
  cbv zeta in Hinv. fold run in Hinv.
  rewrite check_limit_eq. cbv zeta.
  rewrite (Hinv ltac:(by intros; rewrite Hempty)).
  2:{ rewrite app_nil_l. eapply Forall_impl; [exact Hearlier|].
      simpl. intros t. lia. }
  rewrite app_nil_l. fold recent.
  case_bool_decide; cbn [fst snd]; symmetry.
  - apply bool_decide_eq_false_2. lia.
  - apply bool_decide_eq_true_2. lia.
Qed.

Lemma admitted_iff_fewer_than_limit_in_last_hour_witness :
  let run :=
    sequence ((λ t, check_limit t "ann" "guest") <$> [1; 2; 3])
      (init None) in
  let recent :=
    fresh (3600000002 - timedelta_hours 1) (admitted_times [1; 2; 3] run.1) in
  (check_limit 3600000002 "ann" "guest" run.2).1.1
  = bool_decide (Z.of_nat (length recent) < limit_of "guest").
Proof.
  apply (admitted_iff_fewer_than_limit_in_last_hour
           (init None) "ann" "guest" [1; 2; 3] 3600000002).
  - reflexivity.
  - repeat constructor; lia.
Defined.

(** X2: a rejected check is free.  It uses up no quota and does not
    prolong the block: a check for the same user at the same or a later
    time, with any tier, has the same answer and leaves the same limiter
    as if the rejected check had never been made. *)
Theorem rejected_check_leaves_no_trace
    self username tier (now later : datetime) tier' :
  (check_limit now username tier self).1.1 = false →
  now ≤ later →
  check_limit later username tier' (check_limit now username tier self).2
  = check_limit later username tier' self.
Proof.
  intros Hrejected Hlater.
  rewrite (check_limit_eq now) in Hrejected |- *. cbv zeta in *.
  case_bool_decide as Hfull; cbn [fst snd] in *; [|done].
  set (self1 := set_window username _ self).
  rewrite (check_limit_eq later _ _ self1), (check_limit_eq later _ _ self).
  cbv zeta. subst self1.
  rewrite window_set_window, fresh_fresh, !set_window_set_window
    by (unfold timedelta_hours; lia).
  done.
Qed.

Lemma rejected_check_leaves_no_trace_witness :
  let self :=
    {| limits := {[ "ann" := [1; 2; 3; 4; 5; 6; 7; 8; 9; 10] ]};
       limits_file := None |} in
  check_limit 3600000003 "ann" "guest" (check_limit 11 "ann" "guest" self).2
  = check_limit 3600000003 "ann" "guest" self.
Proof.
  intros self.
  apply (rejected_check_leaves_no_trace self "ann" "guest" 11 3600000003).
  - reflexivity.
  - lia.
Defined.

(** X3: users do not share quota.  Checks for other users, however many
    and with whatever tiers, leave the window of a user as it is, and the
    user's next check gets the answer it would have got without them. *)
Theorem other_users_checks_do_not_interfere
    self (requests : list request) username :
  Forall (λ r, r_username r ≠ username) requests →
  let self' := (sequence (serve <$> requests) self).2 in
  window self' username = window self username ∧
  ∀ now tier,
    (check_limit now username tier self').1
    = (check_limit now username tier self).1.
Proof.
  intros Hothers self'.
  assert (window self' username = window self username) as Hwindow.
  { subst self'. revert self.
    induction Hothers as [|r requests Hr _ IH]; intros self; [done|].
    rewrite fmap_cons, sequence_cons.
    destruct (serve r self) as [answer self1] eqn:Hserve.
    specialize (IH self1).
    destruct (sequence (serve <$> requests) self1) as [answers self2].
    cbn [snd] in *. rewrite IH.
    replace self1 with (serve r self).2 by by rewrite Hserve.
    by apply check_limit_other. }
  split; [done|]. intros now tier. by apply check_limit_answer_ext.
Qed.

Lemma other_users_checks_do_not_interfere_witness :
  let requests :=
    [ mk_request 1 "bob" "pro"; mk_request 2 "eve" "guest" ] in
  let self' := (sequence (serve <$> requests) (init None)).2 in
  window self' "ann" = window (init None) "ann" ∧
  ∀ now tier,
    (check_limit now "ann" tier self').1
    = (check_limit now "ann" tier (init None)).1.
Proof.
  intros requests.
  apply (other_users_checks_do_not_interfere (init None) requests "ann").
  subst requests. repeat constructor; simpl; discriminate.
Defined.

(** X4: what reaches [rate_limits.json].  An admitted check saves the
    whole limiter, so that a limiter created from the file afterwards is
    the very limiter that answered; a rejected check writes nothing. *)
Theorem admitted_check_is_durable now username tier self :
  let '(answer, self') := check_limit now username tier self in
  if answer.1 then init (limits_file self') = self'
  else limits_file self' = limits_file self.
Proof.
  rewrite check_limit_eq. cbv zeta.
  by case_bool_decide.
Qed.

End sliding_window.

(** ** History: what a call stores and what a read returns *)

Section history_more.
Import HistoryManager.
Implicit Types (dir : t) (username file : string) (c : call).

Lemma entry_of_within_bounds c : within_bounds (entry_of c).
Proof.
  unfold within_bounds, entry_of. simpl.
  rewrite !len_str_prefix. lia.
Qed.

Lemma last_last_entries {A} (n : nat) (l : list A) (x : A) :
  (0 < n)%nat → last (last_entries n (l ++ [x])) = Some x.
Proof.
  intros Hn. unfold last_entries.
  rewrite length_app, drop_app. simpl.
  replace (length l + 1 - n - length l)%nat with 0%nat by lia.
  simpl. apply last_snoc.
Qed.



Lemma append_well_formed c dir :
  well_formed dir → well_formed (append c dir).2.
Proof.
  intros Hwf file history.
  destruct (file_name (c_username c)) as [file'|] eqn:Hfile;
    [|by rewrite append_no_file; [apply Hwf|]].
  apply file_name_Some in Hfile. rewrite (append_file _ _ file') by done.
  cbn [snd].
  destruct (decide (file' = file)) as [<-|Hne].
  - rewrite lookup_insert_eq. intros [= <-]. split.
    + rewrite length_last_entries. lia.
    + unfold last_entries. apply Forall_drop, Forall_app. split.
      * unfold held.
        destruct (dir !! file') as [h|] eqn:Hh; [|done].
        by apply (Hwf _ _ Hh).
      * constructor; [apply entry_of_within_bounds|done].
  - rewrite lookup_insert_ne by done. apply Hwf.
Qed.

(** X6: the shape of the history directory.  If every file holds at most
    100 entries, each with at most 200 characters of query and 500 of
    result, as in an empty directory, then so it is after any sequence of
    [add_entry] calls by any users whose paths stay in the directory. *)
Theorem add_entry_keeps_directory_well_formed dir (calls : list call) :
  Forall (λ c, history_file (c_username c) ≠ outside) calls →
  well_formed dir →
  well_formed (sequence (append <$> calls) dir).2.
Proof.
  intros _. revert dir.
  induction calls as [|c calls IH]; intros dir Hwf; [done|].
  rewrite fmap_cons, sequence_cons.
  destruct (append c dir) as [answer dir1] eqn:Happend.
  specialize (IH dir1).
  destruct (sequence (append <$> calls) dir1) as [answers dir2].
  cbn [snd] in *. apply IH.
  replace dir1 with (append c dir).2 by by rewrite Happend.
  by apply append_well_formed.
Qed.

Lemma add_entry_keeps_directory_well_formed_witness :
  let dir := (sequence (append <$> calls_of "ann" 3) ∅).2 in
  ∃ history,
    dir !! "ann.json" = Some history ∧
    (length history ≤ 100)%nat ∧ Forall within_bounds history.
Proof.
  intros dir. exists (entry_of <$> calls_of "ann" 3).
  split; [reflexivity|].
  apply (add_entry_keeps_directory_well_formed ∅ (calls_of "ann" 3)
           ltac:(repeat constructor; vm_compute; discriminate)
           ltac:(intros file history Hin; by rewrite lookup_empty in Hin)
           "ann.json").
  reflexivity.
Defined.

(** X7: histories are per file.  A call of [add_entry] for one user
    changes what no other user reads, as long as their usernames lead to
    different places and none of the two paths leaves the directory:
    [get_history] with any limit and [get_analytics] return for the
    other user what they returned before.  Two different usernames
    without "/" lead to different files. *)
Theorem add_entry_leaves_other_users_history
    now username tool query result dir username' :
  history_file username ≠ outside →
  history_file username' ≠ outside →
  history_file username ≠ history_file username' →
  let dir' := (add_entry now username tool query result dir).2 in
  (∀ limit,
     (get_history username' limit dir').1
     = (get_history username' limit dir).1) ∧
  (∀ week_now month_now,
     (get_analytics week_now month_now username' dir').1
     = (get_analytics week_now month_now username' dir).1) ∧
  (plain username → plain username' → username ≠ username' →
   history_file username ≠ history_file username').
Proof.
  intros _ _ Hne dir'. split; [|split].
  - intros limit. rewrite !get_history_eq. cbn [fst].
    destruct (history_file username') as [file'| | |] eqn:Hfile'; try done.
    pose proof (lookup_append_other
                  (mk_call now username tool query result) dir file')
      as Hother.
    unfold append in Hother.
    cbn [c_now c_username c_tool c_query c_result] in Hother.
    fold dir' in Hother. rewrite Hother; [done|].
    unfold file_name. destruct (history_file username); congruence.
  - intros week_now month_now.
    destruct (file_name username') as [file'|] eqn:Hfile'.
    + apply file_name_Some in Hfile'.
      rewrite !(get_analytics_eq _ _ _ _ file') by done. cbn [fst].
      pose proof (held_append_other
                    (mk_call now username tool query result) dir file')
        as Hother.
      unfold append in Hother.
      cbn [c_now c_username c_tool c_query c_result] in Hother.
      fold dir' in Hother. rewrite Hother; [done|].
      unfold file_name. destruct (history_file username); congruence.
    + by rewrite !get_analytics_no_file.
  - intros Hplain Hplain' Hdiff Heq.
    by apply Hdiff, history_file_plain_inj.
Qed.

Lemma add_entry_leaves_other_users_history_witness :
  let dir' := (add_entry 5 "ann" "sentiment" "q" "r" ∅).2 in
  (∀ limit,
     (get_history "bob" limit dir').1 = (get_history "bob" limit ∅).1) ∧
  (∀ week_now month_now,
     (get_analytics week_now month_now "bob" dir').1
     = (get_analytics week_now month_now "bob" ∅).1) ∧
  (plain "ann" → plain "bob" → "ann" ≠ "bob" →
   history_file "ann" ≠ history_file "bob").
Proof.
  apply (add_entry_leaves_other_users_history
           5 "ann" "sentiment" "q" "r" ∅ "bob"); vm_compute; discriminate.
Defined.

End history_more.

(** ** History: reads after writes, and the edges of [get_history] *)

Section history_reads.
Import HistoryManager.
Implicit Types (dir : t) (username file : string).

Lemma last_entries_last_entries {A} (n m : nat) (l : list A) :
  last_entries n (last_entries m l) = last_entries (n `min` m) l.
Proof.
  unfold last_entries. rewrite length_drop, drop_drop. f_equal. lia.
Qed.

(** X8: a read returns what was just written.  After [add_entry] for a
    username whose path leads to a file of the history directory,
    [get_history] of that user with a positive limit returns the last
    [min limit 100] entries of the old history followed by the new entry,
    oldest first, so that the new entry comes last; it returns at most
    [limit] entries and leaves the directory as it is. *)
Theorem get_history_reads_back_latest
    now username tool query result dir (limit : Z) file :
  0 < limit →
  history_file username = file_of file →
  let entry := entry_of (mk_call now username tool query result) in
  let dir' := (add_entry now username tool query result dir).2 in
  let recent :=
    last_entries (Z.to_nat limit `min` 100) (held dir file ++ [entry]) in
  get_history username limit dir' = (Returns recent, dir') ∧
  last recent = Some entry ∧
  Z.of_nat (length recent) ≤ limit.
Proof.
  intros Hpos Hfile entry dir' recent.
  rewrite (get_history_file _ _ _ file) by done.
  pose proof (held_append_same
                (mk_call now username tool query result) dir file)
    as Hheld.
  unfold append in Hheld.
  cbn [c_now c_username c_tool c_query c_result] in Hheld.
  fold dir' entry in Hheld.
  rewrite Hheld, last_entries_last_entries by by apply file_name_Some.
  split_and!; try done.
  - apply last_last_entries. lia.
  - unfold recent. rewrite length_last_entries. lia.
Qed.

Lemma get_history_reads_back_latest_witness :
  let entry := entry_of (mk_call 5 "ann" "sentiment" "q" "r") in
  let dir' := (add_entry 5 "ann" "sentiment" "q" "r" ∅).2 in
  let recent :=
    last_entries (Z.to_nat 10 `min` 100) (held ∅ "ann.json" ++ [entry]) in
  get_history "ann" 10 dir' = (Returns recent, dir') ∧
  last recent = Some entry ∧
  Z.of_nat (length recent) ≤ 10.
Proof.
  apply (get_history_reads_back_latest 5 "ann" "sentiment" "q" "r" ∅ 10
           "ann.json").
  - lia.
  - reflexivity.
Defined.

(** X9: the edges of [get_history].  A user without a history file gets
    the empty list, whatever the limit.  A limit that is zero or negative
    does not limit: for [limit = -k] the call returns the stored history
    without its [k] oldest entries, all of it for [k = 0]. *)
Theorem get_history_without_file_and_with_nonpositive_limit
    dir username :
  (history_file username ≠ outside →
   (∀ file, history_file username = file_of file → dir !! file = None) →
   ∀ limit, get_history username limit dir = (Returns [], dir)) ∧
  (∀ k : nat,
     get_history username (- Z.of_nat k) dir
     = (drop k <$> stored dir username, dir)).
Proof.
  split.
  - intros Hin Hnone limit. rewrite get_history_eq.
    destruct (history_file username) as [file| | |]; try done.
    by rewrite (Hnone file).
  - intros k. rewrite get_history_eq. unfold stored, held. f_equal.
    destruct (history_file username) as [file| | |];
      unfold fmap, outcome_fmap; rewrite ?drop_nil; try done.
    destruct (dir !! file) as [history|]; simpl.
    + unfold Py.slice_from. rewrite Z.opp_involutive.
      rewrite bool_decide_eq_false_2 by lia.
      destruct (decide (k ≤ length history)%nat).
      * do 2 f_equal. lia.
      * rewrite !drop_ge by lia. done.
    + by rewrite drop_nil.
Qed.

Lemma get_history_without_file_and_with_nonpositive_limit_witness :
  get_history "ann" 10 ∅ = (Returns [], ∅).
Proof.
  apply (proj1 (get_history_without_file_and_with_nonpositive_limit ∅ "ann")).
  - vm_compute. discriminate.
  - reflexivity.
Defined.

End history_reads.

(** ** Analytics: the counts are consistent *)

Section analytics_more.
Import HistoryManager.
Implicit Types (dir : t) (username file : string).

Lemma length_filter_mono {A} (P Q : A → Prop)
    `{!∀ x, Decision (P x), !∀ x, Decision (Q x)} (l : list A) :
  (∀ x, P x → Q x) →
  (length (filter P l) ≤ length (filter Q l))%nat.
Proof.
  intros Himp. induction l as [|x l IH]; [done|].
  rewrite !filter_cons.
  destruct (decide (P x)) as [HP|HP].
  - rewrite decide_True by auto. simpl. lia.
  - destruct (decide (Q x)); simpl; lia.
Qed.

(** A summary comes from a file of the directory whose timestamps pandas
    has read. *)
Lemma get_analytics_Some week_now month_now username dir analytics :
  (get_analytics week_now month_now username dir).1
  = Returns (Some analytics) →
  ∃ history,
    stored dir username = Returns history ∧
    let df := last_entries 1000 history in
    let timestamp := HistoryEntry.timestamp <$> df in
    df ≠ [] ∧
    pandas_reads timestamp ∧
    analytics
    = {| Analytics.total_queries := length df;
         Analytics.tools_used := value_counts (HistoryEntry.tool <$> df);
         Analytics.queries_by_date := value_counts (date_of <$> timestamp);
         Analytics.last_7_days :=
           length (filter (λ ts, week_now - timedelta_days 7 < ts)
                     timestamp);
         Analytics.last_30_days :=
           length (filter (λ ts, month_now - timedelta_days 30 < ts)
                     timestamp) |}.
Proof.
  destruct (file_name username) as [file|] eqn:Hfile.
  - apply file_name_Some in Hfile.
    rewrite (get_analytics_eq _ _ _ _ file) by done. cbn [fst].
    intros Hsome. exists (held dir file). unfold stored.
    rewrite Hfile. split; [done|]. cbv zeta.
    destruct (last_entries 1000 (held dir file)) as [|e df]; [done|].
    destruct (to_datetime _) as [timestamp| |] eqn:Hreads; try done.
    pose proof (to_datetime_Returns _ _ Hreads) as ->.
    split; [done|]. split; [done|]. by injection Hsome as <-.
  - rewrite get_analytics_no_file by done. cbn [fst].
    by destruct (history_file username).
Qed.

(** X10: the numbers of a summary fit together, whatever the history.
    The total is the number of stored entries (of the last 1000 if there
    were more) and is not zero; the per-tool counts add up to the total,
    and so do the per-date counts; every tool listed has a positive
    count, the number of its entries; and neither the count of the last
    7 days nor that of the last 30 days exceeds the total. *)
Theorem analytics_counts_add_up
    week_now month_now username dir analytics :
  (get_analytics week_now month_now username dir).1
  = Returns (Some analytics) →
  ∃ history,
    stored dir username = Returns history ∧
    let df := last_entries 1000 history in
    Analytics.total_queries analytics = (length history `min` 1000)%nat ∧
    (0 < Analytics.total_queries analytics)%nat ∧
    total_count (Analytics.tools_used analytics)
    = Analytics.total_queries analytics ∧
    total_count (Analytics.queries_by_date analytics)
    = Analytics.total_queries analytics ∧
    (∀ tool n,
       Analytics.tools_used analytics !! tool = Some n →
       (0 < n)%nat ∧ n = occurrences tool (HistoryEntry.tool <$> df)) ∧
    (Analytics.last_7_days analytics
     ≤ Analytics.total_queries analytics)%nat ∧
    (Analytics.last_30_days analytics
     ≤ Analytics.total_queries analytics)%nat.
Proof.
  intros (history & Hstored & Hne & _ & ->)%get_analytics_Some.
  exists history. split; [done|]. intros df. fold df in Hne.
  cbn [Analytics.total_queries Analytics.tools_used
       Analytics.queries_by_date Analytics.last_7_days
       Analytics.last_30_days].
  split_and!.
  - subst df. apply length_last_entries.
  - subst df. destruct (last_entries 1000 history); [done|simpl; lia].
  - by rewrite total_count_value_counts, length_fmap.
  - by rewrite total_count_value_counts, !length_fmap.
  - intros tool n. rewrite value_counts_lookup.
    case_decide; [done|]. intros [= <-]. split; [lia|done].
  - etrans; [apply length_filter|]. by rewrite length_fmap.
  - etrans; [apply length_filter|]. by rewrite length_fmap.
Qed.

Lemma analytics_counts_add_up_witness :
  let dir := (sequence (append <$> two_days_between_seconds) ∅).2 in
  ∃ analytics,
    (get_analytics 172800000000 172800000001 "ann" dir).1
    = Returns (Some analytics) ∧
    Analytics.total_queries analytics = 8%nat ∧
    total_count (Analytics.tools_used analytics) = 8%nat ∧
    total_count (Analytics.queries_by_date analytics) = 8%nat.
Proof.
  intros dir.
  destruct (get_analytics 172800000000 172800000001 "ann" dir).1
    as [[analytics|]| |] eqn:Hsome; try (by vm_compute in Hsome).
  exists analytics. split; [done|].
  destruct (analytics_counts_add_up _ _ _ _ _ Hsome)
    as (history & Hstored & Htotal & _ & Htools & Hdates & _).
  rewrite Htools, Hdates, Htotal.
  assert (history = entry_of <$> two_days_between_seconds) as ->.
  { assert (stored dir "ann"
            = Returns (entry_of <$> two_days_between_seconds)) as Heq
      by reflexivity.
    congruence. }
  split_and!; reflexivity.
Defined.

(** X11: the week lies within the month.  When the second reading of the
    clock is at most 23 days after the first, the count of the last 7
    days does not exceed the count of the last 30 days. *)
Theorem analytics_week_within_month
    week_now month_now username dir analytics :
  month_now - week_now ≤ timedelta_days 23 →
  (get_analytics week_now month_now username dir).1
  = Returns (Some analytics) →
  (Analytics.last_7_days analytics
   ≤ Analytics.last_30_days analytics)%nat.
Proof.
  intros Hclock (history & _ & _ & _ & ->)%get_analytics_Some.
  cbn [Analytics.last_7_days Analytics.last_30_days].
  apply length_filter_mono. intros ts. unfold timedelta_days in *. lia.
Qed.

Lemma analytics_week_within_month_witness :
  let dir := (sequence (append <$> two_days_between_seconds) ∅).2 in
  ∃ analytics,
    (get_analytics 172800000000 172800000001 "ann" dir).1
    = Returns (Some analytics) ∧
    (Analytics.last_7_days analytics
     ≤ Analytics.last_30_days analytics)%nat.
Proof.
  intros dir.
  destruct (get_analytics 172800000000 172800000001 "ann" dir).1
    as [[analytics|]| |] eqn:Hsome; try (by vm_compute in Hsome).
  exists analytics. split; [done|].
  apply (analytics_week_within_month 172800000000 172800000001 "ann" dir);
    [|done].
  unfold timedelta_days. lia.
Defined.

(** X12: use shows up in the summary.  After [add_entry] for a username
    whose path leads to a file of the history directory the summary of
    that user is never [None].  When [pd.to_datetime] reads the stored
    timestamps, there is a summary: its total is one more than the
    number of entries stored before, up to 100, and the tool just used
    is listed with a positive count. *)
Theorem analytics_after_add_entry
    now username tool query result dir week_now month_now file :
  history_file username = file_of file →
  let dir' := (add_entry now username tool query result dir).2 in
  (get_analytics week_now month_now username dir').1 ≠ Returns None ∧
  (pandas_reads (HistoryEntry.timestamp <$> held dir' file) →
   ∃ analytics n,
     (get_analytics week_now month_now username dir').1
     = Returns (Some analytics) ∧
     Analytics.total_queries analytics
     = ((length (held dir file) + 1) `min` 100)%nat ∧
     Analytics.tools_used analytics !! tool = Some n ∧
     (0 < n)%nat).
Proof.
  intros Hfile dir'.
  set (entry := entry_of (mk_call now username tool query result)).
  pose proof (held_append_same
                (mk_call now username tool query result) dir file)
    as Hheld.
  unfold append in Hheld.
  cbn [c_now c_username c_tool c_query c_result] in Hheld.
  fold dir' entry in Hheld.
  rewrite file_name_Some in Hheld. specialize (Hheld Hfile).
  assert (length (held dir' file)
          = ((length (held dir file) + 1) `min` 100)%nat) as Hlen.
  { by rewrite Hheld, length_last_entries, length_app. }
  assert (last (held dir' file) = Some entry) as Hlast.
  { rewrite Hheld. apply last_last_entries. lia. }
  assert (held dir' file ≠ []) as Hne.
  { intros Hnil. by rewrite Hnil in Hlast. }
  split.
  - rewrite (get_analytics_eq _ _ _ _ file) by done. cbn [fst].
    rewrite last_entries_short by lia.
    destruct (held dir' file) as [|e history]; [done|].
    by destruct (to_datetime _).
  - intros Hreads.
    rewrite (get_analytics_reads _ _ _ _ file);
      rewrite ?last_entries_short by lia; try done.
    cbn [fst]. eexists. eexists. split; [done|].
    cbn [Analytics.total_queries Analytics.tools_used]. split; [done|].
    rewrite value_counts_lookup.
    assert (0 < occurrences tool (HistoryEntry.tool <$> held dir' file))%nat
      as Hpos.
    { apply last_Some in Hlast as [history' Hsplit]. rewrite Hsplit.
      unfold occurrences. rewrite fmap_app, filter_app, length_app.
      simpl. rewrite filter_cons_True by done. simpl. lia. }
    rewrite decide_False by lia. split; [done|lia].
Qed.

Lemma analytics_after_add_entry_witness :
  let dir' := (add_entry 250000 "ann" "sentiment" "q" "r" ∅).2 in
  (get_analytics 7 8 "ann" dir').1 ≠ Returns None ∧
  ∃ analytics n,
    (get_analytics 7 8 "ann" dir').1 = Returns (Some analytics) ∧
    Analytics.total_queries analytics
    = ((length (held ∅ "ann.json") + 1) `min` 100)%nat ∧
    Analytics.tools_used analytics !! "sentiment" = Some n ∧
    (0 < n)%nat.
Proof.
  intros dir'.
  destruct (analytics_after_add_entry 250000 "ann" "sentiment" "q" "r" ∅ 7 8
              "ann.json" eq_refl) as [Hsome Hsummary].
  split; [exact Hsome|]. apply Hsummary. reflexivity.
Defined.

End analytics_more.

(** ** Accounts: registration never overwrites, updates never create *)

Section accounts_more.
Import UserManager.
Context `{Bcrypt}.
Implicit Types (self : t) (username password : string) (g : registration).

Lemma enroll_eq g self :
  enroll g self
  = if decide (is_Some (users self !! g_username g)) then
      ((false, "Username already exists"), self)
    else
      ((true, "Registration successful"),
       _save_users (set_user (g_username g) (account_of g) self)).
Proof.
  unfold enroll. case_decide as Hin.
  - by apply register_user_taken.
  - apply register_user_new. by apply eq_None_not_Some.
Qed.

Lemma enroll_keeps_account g self username account :
  users self !! username = Some account →
  users (enroll g self).2 !! username = Some account.
Proof.
  intros Hin. rewrite enroll_eq. case_decide as Htaken; [done|].
  cbn [snd _save_users set_user users].
  rewrite lookup_insert_ne; [done|].
  intros <-. apply Htaken. by eexists.
Qed.

Lemma enrolls_keep_account (registrations : list registration) :
  ∀ self username account,
  users self !! username = Some account →
  users (sequence (enroll <$> registrations) self).2 !! username
  = Some account.
Proof.
  induction registrations as [|g registrations IH];
    intros self username account Hin; [done|].
  rewrite fmap_cons, sequence_cons.
  destruct (enroll g self) as [answer self1] eqn:Henroll.
  specialize (IH self1 username account).
  destruct (sequence (enroll <$> registrations) self1) as [answers self2].
  cbn [snd] in *. apply IH.
  replace self1 with (enroll g self).2 by by rewrite Henroll.
  by apply enroll_keeps_account.
Qed.

(** X13: registration never touches an existing account.  Whatever
    registrations follow, under the same or under other usernames, an
    account that exists stays exactly as it is, and so does the answer of
    [authenticate_user] for its username with any password. *)
Theorem registrations_keep_existing_accounts
    self (registrations : list registration) username account :
  users self !! username = Some account →
  let self' := (sequence (enroll <$> registrations) self).2 in
  users self' !! username = Some account ∧
  ∀ password,
    (authenticate_user username password self').1
    = (authenticate_user username password self).1.
Proof.
  intros Hin self'.
  assert (users self' !! username = Some account) as Hin'
    by by apply enrolls_keep_account.
  split; [done|]. intros password.
  by rewrite !(authenticate_user_known _ _ account).
Qed.

(** X14: the first registration of a username wins.  In any sequence of
    registrations on a manager that does not know the username, the
    account stored in the end is the one of the first registration with
    that username: tier "user", no API key, the hash of its password.
    Its password authenticates; no later registration has changed it. *)
Theorem first_registration_wins
    self (before after : list registration) g :
  bcrypt_sound →
  users self !! g_username g = None →
  Forall (λ g', g_username g' ≠ g_username g) before →
  let self' := (sequence (enroll <$> before ++ g :: after) self).2 in
  users self' !! g_username g = Some (account_of g) ∧
  authenticate_user (g_username g) (g_password g) self' = (true, self').
Proof.
  intros Hsound Hnew Hbefore self'.
  assert (users self' !! g_username g = Some (account_of g)) as Hstored.
  { subst self'. rewrite fmap_app, sequence_app.
    destruct (sequence (enroll <$> before) self) as [answers1 self1] eqn:Hrun1.
    assert (users self1 !! g_username g = None) as Hnew1.
    { replace self1 with (sequence (enroll <$> before) self).2
        by by rewrite Hrun1.
      clear Hrun1. revert self Hnew.
      induction Hbefore as [|g' before Hg' _ IH]; intros self Hnew; [done|].
      rewrite fmap_cons, sequence_cons.
      destruct (enroll g' self) as [answer self0] eqn:Henroll.
      specialize (IH self0).
      destruct (sequence (enroll <$> before) self0) as [answers self2].
      cbn [snd] in *. apply IH.
      replace self0 with (enroll g' self).2 by by rewrite Henroll.
      rewrite enroll_eq. case_decide; [done|].
      cbn [snd _save_users set_user users].
      by rewrite lookup_insert_ne. }
    rewrite fmap_cons, sequence_cons.
    destruct (enroll g self1) as [answer self2] eqn:Henroll.
    pose proof (enrolls_keep_account after self2 (g_username g)
                  (account_of g)) as Hkeep.
    destruct (sequence (enroll <$> after) self2) as [answers2 self3].
    cbn [snd] in *. apply Hkeep.
    replace self2 with (enroll g self1).2 by by rewrite Henroll.
    rewrite enroll_eq. rewrite decide_False by by rewrite Hnew1; intros [? ?].
    cbn [snd _save_users set_user users]. apply lookup_insert_eq. }
  split; [done|].
  rewrite (authenticate_user_known _ _ (account_of g)) by done.
  unfold account_of. cbn [Account.password]. by rewrite Hsound.
Qed.

Lemma update_user_eq username updates self :
  update_user username updates self
  = match users self !! username with
    | Some account =>
        (true,
         _save_users (set_user username (dict_update account updates) self))
    | None => (false, self)
    end.
Proof.
  unfold update_user, mbind, State_bind, get.
  by destruct (users self !! username).
Qed.

(** X15: [update_user] neither creates nor removes accounts.  It returns
    [True] exactly when the username has an account; the set of usernames
    is the same afterwards, every other account is unchanged, and on
    [False] neither the manager nor [users.json] has changed. *)
Theorem update_user_keeps_the_usernames username updates self :
  let '(updated, self') := update_user username updates self in
  updated = bool_decide (is_Some (users self !! username)) ∧
  dom (users self') = dom (users self) ∧
  (∀ username', username' ≠ username →
                users self' !! username' = users self !! username') ∧
  (updated = false → self' = self) ∧
  (updated = true → users_file self' = Some (users self')).
Proof.
  rewrite update_user_eq.
  destruct (users self !! username) as [account|] eqn:Hin.
  - cbn [_save_users set_user users users_file]. split_and!.
    + symmetry. apply bool_decide_eq_true_2. by eexists.
    + rewrite dom_insert_L.
      apply subseteq_union_1_L, singleton_subseteq_l, elem_of_dom.
      by eexists.
    + intros username' Hne. by rewrite lookup_insert_ne.
    + done.
    + done.
  - by split_and!.
Qed.

(** X16: an update that does not name the password leaves logins as they
    are: [authenticate_user] answers the same for every username and
    password as before the update. *)
Theorem update_without_password_keeps_logins
    username updates self username' password :
  Updates.password updates = None →
  (authenticate_user username' password
     (update_user username updates self).2).1
  = (authenticate_user username' password self).1.
Proof.
  intros Hnone. rewrite update_user_eq.
  destruct (users self !! username) as [account|] eqn:Hin; [|done].
  cbn [snd].
  destruct (decide (username' = username)) as [->|Hne].
  - rewrite (authenticate_user_known _ _ (dict_update account updates))
      by apply lookup_insert_eq.
    rewrite (authenticate_user_known _ _ account self) by done.
    unfold dict_update. cbn [Account.password]. by rewrite Hnone.
  - unfold authenticate_user, mbind, State_bind, get.
    cbn [_save_users set_user users].
    rewrite lookup_insert_ne by done.
    by destruct (users self !! username').
Qed.

End accounts_more.

Lemma stand_in_bcrypt_sound : bcrypt_sound (H := StandIn.bcrypt).
Proof. intros password s. simpl. by apply bool_decide_eq_true_2. Qed.

Lemma registrations_keep_existing_accounts_witness :
  let account :=
    {| Account.password := "correct horse";
       Account.email := "ann@example.org";
       Account.tier := "user";
       Account.created_at := 7;
       Account.api_key := None |} in
  let self' :=
    (sequence (enroll (H := StandIn.bcrypt) <$> later_registrations)
       ann_registered).2 in
  UserManager.users self' !! "ann" = Some account ∧
  ∀ password,
    (UserManager.authenticate_user (H := StandIn.bcrypt) "ann" password
       self').1
    = (UserManager.authenticate_user (H := StandIn.bcrypt) "ann" password
         ann_registered).1.
Proof.
  intros account.
  apply (registrations_keep_existing_accounts (H := StandIn.bcrypt)
           ann_registered later_registrations "ann" account).
  reflexivity.
Defined.

Lemma first_registration_wins_witness :
  let g :=
    mk_registration StandIn.bcrypt () 7 "ann" "correct horse"
      "ann@example.org" in
  let self' :=
    (sequence (enroll (H := StandIn.bcrypt) <$> [] ++ g :: later_registrations)
       (UserManager.init None)).2 in
  UserManager.users self' !! g_username g = Some (account_of g) ∧
  UserManager.authenticate_user (H := StandIn.bcrypt)
    (g_username g) (g_password g) self'
  = (true, self').
Proof.
  intros g.
  apply (first_registration_wins (H := StandIn.bcrypt)
           (UserManager.init None) [] later_registrations g).
  - apply stand_in_bcrypt_sound.
  - reflexivity.
  - constructor.
Defined.

Lemma update_without_password_keeps_logins_witness :
  let updates :=
    {| Updates.password := None; Updates.email := None;
       Updates.tier := Some "pro"; Updates.created_at := None;
       Updates.api_key := None |} in
  (UserManager.authenticate_user (H := StandIn.bcrypt) "ann" "correct horse"
     (update_user "ann" updates ann_registered).2).1
  = (UserManager.authenticate_user (H := StandIn.bcrypt) "ann"
       "correct horse" ann_registered).1.
Proof.
  intros updates.
  apply (update_without_password_keeps_logins (H := StandIn.bcrypt)
           "ann" updates ann_registered "ann" "correct horse").
  reflexivity.
Defined.

(** ** API keys: several keys, and the file *)

Section api_keys_more.
Import APIKeyManager.
Context `{Digest}.
Implicit Types (self : t) (username api_key : string).

(** X17: a user can hold several keys.  Issuing a key, to the same or to
    another user, leaves every other key as it was: a key whose digest
    differs from that of the new key validates and resolves exactly as
    before. *)
Theorem new_key_keeps_earlier_keys
    self token now username api_key :
  sha256_hexdigest api_key ≠ sha256_hexdigest (format_key token) →
  let self' := (generate_key token now username self).2 in
  (get_user_by_key api_key self').1 = (get_user_by_key api_key self).1 ∧
  (validate_key api_key self').1 = (validate_key api_key self).1.
Proof.
  intros Hne self'. subst self'.
  rewrite generate_key_eq, !get_user_by_key_eq, !validate_key_eq.
  cbn [fst snd _save_keys set_key keys].
  by rewrite lookup_insert_ne.
Qed.

(** X18: keys survive a restart, and the two lookups agree.
    [generate_key] writes the whole store to [api_keys.json], so a manager
    created from the file afterwards is the very manager that issued the
    key, and the key resolves there to its user.  On any manager,
    [validate_key] accepts a key exactly when [get_user_by_key] finds a
    user for it. *)
Theorem issued_key_survives_reload self token now username :
  let '(api_key, self') := generate_key token now username self in
  init (api_keys_file self') = self' ∧
  get_user_by_key api_key (init (api_keys_file self'))
  = (Some username, init (api_keys_file self')) ∧
  ∀ candidate,
    (validate_key candidate self').1 = true
    ↔ is_Some (get_user_by_key candidate self').1.
Proof.
  rewrite generate_key_eq.
  set (self' := _save_keys _).
  assert (init (api_keys_file self') = self') as Hreload by done.
  rewrite Hreload. split_and!.
  - done.
  - rewrite get_user_by_key_eq. subst self'.
    cbn [_save_keys set_key keys]. by rewrite lookup_insert_eq.
  - intros candidate. rewrite get_user_by_key_eq, validate_key_eq.
    cbn [fst]. rewrite bool_decide_eq_true, fmap_is_Some. done.
Qed.

End api_keys_more.

Lemma new_key_keeps_earlier_keys_witness :
  let self :=
    (sequence (APIKeyManager.grant (H := StandIn.digest) <$> two_issues)
       (APIKeyManager.init None)).2 in
  let self' :=
    (APIKeyManager.generate_key (H := StandIn.digest)
       [Byte.x65; Byte.x66] 3 "ann" self).2 in
  (APIKeyManager.get_user_by_key (H := StandIn.digest) "sk_ab" self').1
  = (APIKeyManager.get_user_by_key (H := StandIn.digest) "sk_ab" self).1 ∧
  (APIKeyManager.validate_key (H := StandIn.digest) "sk_ab" self').1
  = (APIKeyManager.validate_key (H := StandIn.digest) "sk_ab" self).1.
Proof.
  intros self.
  apply (new_key_keeps_earlier_keys (H := StandIn.digest)
           self [Byte.x65; Byte.x66] 3 "ann" "sk_ab").
  discriminate.
Defined.

(** ** Signing up and logging in *)

Section pages.
Import UserManager.
Context `{Bcrypt}.
Implicit Types (file : option (gmap string Account.t)).
Implicit Types (username email password : string) (session : Session.t).

Lemma signup_page_accepted gensalt now submit username email password
    confirm_password file :
  acceptable submit username email password confirm_password →
  signup_page gensalt now submit username email password confirm_password
    file
  = let '((success, message), user_manager) :=
      register_user gensalt now username password email (init file) in
    (Some (if success then st_success (message +:+ " Please login.")
           else st_error message),
     users_file user_manager).
Proof.
  intros (-> & Hu & He & Hp & Hc & Hlen). unfold signup_page.
  rewrite decide_False by tauto.
  rewrite decide_False by tauto.
  rewrite decide_False by lia.
  unfold mbind, State_bind, get, put, mret, State_ret.
  destruct (register_user _ _ _ _ _ _) as [[[] message] user_manager]; done.
Qed.

Lemma signup_page_success gensalt now submit username email password
    confirm_password file :
  acceptable submit username email password confirm_password →
  _load_users file !! username = None →
  signup_page gensalt now submit username email password confirm_password
    file
  = (Some (st_success "Registration successful Please login."),
     Some (<[username :=
               {| Account.password := hashpw password gensalt;
                  Account.email := email;
                  Account.tier := "user";
                  Account.created_at := now;
                  Account.api_key := None |}]> (_load_users file))).
Proof.
  intros Hform Hnew. rewrite signup_page_accepted by done.
  by rewrite register_user_new.
Qed.

(** X19: what [signup_page] accepts.  An account is created exactly when
    the form is submitted with no field empty, the two passwords equal,
    the password at least 8 characters long, and the username not taken;
    the page then answers "Registration successful Please login." and
    [users.json] gains that account, with tier "user".  In every other
    case the page reports no success and [users.json] stays as it is. *)
Theorem signup_page_creates_account_only_from_valid_form
    gensalt now submit username email password confirm_password file :
  let valid :=
    acceptable submit username email password confirm_password ∧
    _load_users file !! username = None in
  let run :=
    signup_page gensalt now submit username email password
      confirm_password file in
  (valid →
   run = (Some (st_success "Registration successful Please login."),
          Some (<[username :=
                    {| Account.password := hashpw password gensalt;
                       Account.email := email;
                       Account.tier := "user";
                       Account.created_at := now;
                       Account.api_key := None |}]> (_load_users file)))) ∧
  (¬ valid → run.2 = file ∧ ∀ message, run.1 ≠ Some (st_success message)).
Proof.
  intros valid run. split.
  - intros [Hform Hnew]. by apply signup_page_success.
  - intros Hinvalid. subst run.
    destruct (decide (acceptable submit username email password
                        confirm_password)) as [Hform|Hform].
    + assert (is_Some (_load_users file !! username)) as Htaken.
      { destruct (_load_users file !! username) eqn:Hin; [by eexists|].
        exfalso. by apply Hinvalid. }
      rewrite signup_page_accepted by done.
      rewrite register_user_taken by done. by split.
    + unfold signup_page. unfold acceptable in Hform.
      destruct submit; [|done].
      case_decide; [done|]. case_decide; [done|]. case_decide; [done|].
      exfalso. apply Hform. split_and!; try tauto; try lia.
Qed.

Lemma login_page_eq file submit username password session :
  login_page file submit username password session
  = if submit then
      if decide (username = "" ∨ password = "") then
        (Return (Some (st_error "Please enter both username and password")),
         session)
      else
        match _load_users file !! username with
        | Some account =>
            if checkpw password (Account.password account) then
              (Return (Some (st_success "Login successful!")),
               logged_in username (Account.tier account) session)
            else
              (Return (Some (st_error "Invalid username or password")),
               session)
        | None =>
            (Return (Some (st_error "Invalid username or password")),
             session)
        end
    else (Return None, session).
Proof.
  unfold login_page. destruct submit; [|done]. case_decide; [done|].
  destruct (_load_users file !! username) as [account|] eqn:Hin.
  - rewrite (authenticate_user_known _ _ account) by done. cbn [fst].
    destruct (checkpw password (Account.password account)); [|done].
    unfold get_user, mbind, State_bind, get, put, mret, State_ret.
    cbn [fst init users]. by rewrite Hin.
  - by rewrite authenticate_user_unknown.
Qed.

Lemma signup_then_login gensalt now submit username email password
    confirm_password file session :
  bcrypt_sound →
  acceptable submit username email password confirm_password →
  _load_users file !! username = None →
  let file' :=
    (signup_page gensalt now submit username email password
       confirm_password file).2 in
  login_page file' true username password session
  = (Return (Some (st_success "Login successful!")),
     logged_in username "user" session).
Proof.
  intros Hsound Hform Hnew file'. subst file'.
  rewrite signup_page_success by done. cbn [snd].
  destruct Hform as (_ & Hu & _ & Hp & _).
  rewrite login_page_eq. rewrite decide_False by tauto.
  cbn [_load_users]. rewrite lookup_insert_eq. cbn [Account.password].
  by rewrite Hsound.
Qed.

(** X20: who signs up can log in.  After an accepted signup under a free
    username, [login_page] with the same username and password succeeds
    from any session: the session becomes authenticated, under that
    username, with tier "user". *)
Theorem signup_then_login_succeeds
    gensalt now submit username email password confirm_password file
    session :
  bcrypt_sound →
  acceptable submit username email password confirm_password →
  _load_users file !! username = None →
  let file' :=
    (signup_page gensalt now submit username email password
       confirm_password file).2 in
  let '(answer, session') :=
    login_page file' true username password session in
  answer = Return (Some (st_success "Login successful!")) ∧
  Session.authenticated session' = true ∧
  Session.username session' = Some username ∧
  Session.user_tier session' = Some "user".
Proof.
  intros Hsound Hform Hnew file'. subst file'.
  by rewrite signup_then_login.
Qed.

(** X21: the administrator is whoever holds the name.  The two checks of
    [admin_dashboard] let a session through exactly when it is
    authenticated under the username "admin"; nothing reserves that
    name, so a visitor who signs up as "admin" while the name is free
    and logs in passes them. *)
Theorem admin_is_the_user_named_admin
    gensalt now email password (file : option (gmap string Account.t))
    session :
  (admin_dashboard_check session = None
   ↔ Session.authenticated session = true ∧
     Session.username session = Some "admin") ∧
  (bcrypt_sound →
   acceptable true "admin" email password password →
   _load_users file !! "admin" = None →
   let file' :=
     (signup_page gensalt now true "admin" email password password file).2 in
   admin_dashboard_check
     (login_page file' true "admin" password session).2 = None).
Proof.
  split.
  - unfold admin_dashboard_check.
    destruct (Session.authenticated session); simpl; [|by split; [|intros []]].
    case_decide as Hname.
    + split; [done|]. by intros [_ ?].
    + split; [|done]. intros _. split; [done|].
      destruct (decide (Session.username session = Some "admin"));
        [done|by destruct Hname].
  - intros Hsound Hform Hnew file'. subst file'.
    rewrite signup_then_login by done. cbn [snd].
    reflexivity.
Qed.


End pages.

Lemma signup_then_login_succeeds_witness :
  let file' :=
    (signup_page (H := StandIn.bcrypt) () 7 true "ann" "ann@example.org"
       "correct horse" "correct horse" None).2 in
  let '(answer, session') :=
    login_page (H := StandIn.bcrypt) file' true "ann" "correct horse"
      new_session in
  answer = Return (Some (st_success "Login successful!")) ∧
  Session.authenticated session' = true ∧
  Session.username session' = Some "ann" ∧
  Session.user_tier session' = Some "user".
Proof.
  apply (signup_then_login_succeeds (H := StandIn.bcrypt) () 7 true "ann"
           "ann@example.org" "correct horse" "correct horse" None
           new_session).
  - apply stand_in_bcrypt_sound.
  - unfold acceptable. split_and!; try done. simpl. lia.
  - reflexivity.
Defined.

Lemma admin_is_the_user_named_admin_witness :
  let file' :=
    (signup_page (H := StandIn.bcrypt) () 7 true "admin" "eve@example.org"
       "correct horse" "correct horse" None).2 in
  admin_dashboard_check
    (login_page (H := StandIn.bcrypt) file' true "admin" "correct horse"
       new_session).2 = None.
Proof.
  apply (proj2 (admin_is_the_user_named_admin (H := StandIn.bcrypt) () 7
                  "eve@example.org" "correct horse" None new_session)).
  - apply stand_in_bcrypt_sound.
  - unfold acceptable. split_and!; try done. simpl. lia.
  - reflexivity.
Defined.

Lemma signup_page_creates_account_only_from_valid_form_witness :
  signup_page (H := StandIn.bcrypt) () 7 true "ann" "ann@example.org"
    "correct horse" "correct horse" None
  = (Some (st_success "Registration successful Please login."),
     Some (<["ann" :=
               {| Account.password := "correct horse";
                  Account.email := "ann@example.org";
                  Account.tier := "user";
                  Account.created_at := 7;
                  Account.api_key := None |}]> ∅)) ∧
  (8 ≤ String.length "€€€")%nat ∧
  (signup_page (H := StandIn.bcrypt) () 7 true "ann" "ann@example.org"
     "€€€" "€€€" None).2 = None.
Proof.
  split; [|split].
  - apply (proj1 (signup_page_creates_account_only_from_valid_form
                    (H := StandIn.bcrypt) () 7 true "ann" "ann@example.org"
                    "correct horse" "correct horse" None)).
    split; [|reflexivity].
    unfold acceptable. split_and!; try done. simpl. lia.
  - vm_compute. lia.
  - apply (proj2 (signup_page_creates_account_only_from_valid_form
                    (H := StandIn.bcrypt) () 7 true "ann" "ann@example.org"
                    "€€€" "€€€" None)).
    intros [(_ & _ & _ & _ & _ & Hlen) _]. vm_compute in Hlen. lia.
Defined.

(** ** The tool pages and the history *)

Section tool_pages.
Import HistoryManager.
Context `{Py.Interpreter}.
Implicit Types (dir : t) (session : Session.t).

Lemma save_to_history_guest now session tool query result dir :
  Session.authenticated session = false →
  save_to_history now session tool query result dir = (Returns (), dir).
Proof. intros Hguest. unfold save_to_history. by rewrite Hguest. Qed.

Lemma save_to_history_user now session tool query result dir username :
  Session.authenticated session = true →
  Session.username session = Some username →
  save_to_history now session tool query result dir
  = add_entry now username tool query result dir.
Proof.
  intros Hauth Hname. unfold save_to_history. by rewrite Hauth, Hname.
Qed.

(** X23: visitors leave no history.  Whatever a visitor who is not
    logged in enters on the four tool pages, and whatever the tools
    return, the history directory stays as it is. *)
Theorem tool_pages_record_nothing_for_guests
    now session dir
    (tool : string → raised_or string)
    (summarize_text : string → Z → Z → raised_or string)
    (match_job : string → string → raised_or string)
    (pressed : bool) (text other : string) (max_length min_length : Z) :
  Session.authenticated session = false →
  (sentiment_analysis_page now session tool pressed text dir).2 = dir ∧
  (text_summarization_page now session summarize_text pressed text
     max_length min_length dir).2 = dir ∧
  (fake_news_detection_page now session tool pressed text dir).2 = dir ∧
  (job_matching_page now session match_job pressed text other dir).2 = dir.
Proof.
  intros Hguest.
  unfold sentiment_analysis_page, text_summarization_page,
    fake_news_detection_page, job_matching_page.
  split_and!.
  - destruct (pressed && _); [|done]. destruct (tool text); [|done].
    unfold mbind, State_bind. by rewrite save_to_history_guest.
  - destruct (pressed && _); [|done]. case_decide; [done|].
    destruct (summarize_text _ _ _); [|done].
    unfold mbind, State_bind. by rewrite save_to_history_guest.
  - destruct (pressed && _); [|done]. destruct (tool text); [|done].
    unfold mbind, State_bind. by rewrite save_to_history_guest.
  - destruct (pressed && _ && _); [|done].
    destruct (match_job _ _); [|done].
    unfold mbind, State_bind. by rewrite save_to_history_guest.
Qed.

(** X24: a query of a logged-in user is recorded.  Let the username of
    the session lead to a file of the history directory.  When the
    button is pressed, the input is not empty and the tool returns, the
    sentiment page appends an entry with tool "sentiment_analysis", the
    text (cut to 200 characters) and the result (cut to 500) to that
    file, as its latest entry; the job-matching page records the fixed
    query "Resume vs Job" instead of the texts. *)
Theorem tool_pages_record_queries_of_users
    now session dir username file
    (analyze_sentiment : string → raised_or string)
    (match_job : string → string → raised_or string)
    (text resume job_desc result matched : string) :
  Session.authenticated session = true →
  Session.username session = Some username →
  history_file username = file_of file →
  text ≠ "" → resume ≠ "" → job_desc ≠ "" →
  analyze_sentiment text = Return result →
  match_job resume job_desc = Return matched →
  (let '(shown, dir') :=
     sentiment_analysis_page now session analyze_sentiment true text dir in
   shown = Returns (Some (st_success "Analysis Complete!")) ∧
   last (held dir' file)
   = Some {| HistoryEntry.timestamp := now;
             HistoryEntry.tool := "sentiment_analysis";
             HistoryEntry.query := Py.str_prefix 200 text;
             HistoryEntry.result := Py.str_prefix 500 result |}) ∧
  (let '(shown, dir') :=
     job_matching_page now session match_job true resume job_desc dir in
   shown = Returns (Some (st_success "Match Calculated!")) ∧
   last (held dir' file)
   = Some {| HistoryEntry.timestamp := now;
             HistoryEntry.tool := "job_matching";
             HistoryEntry.query := "Resume vs Job";
             HistoryEntry.result := Py.str_prefix 500 matched |}).
Proof.
  intros Hauth Hname Hfile Htext Hresume Hjob Hresult Hmatched.
  unfold sentiment_analysis_page, job_matching_page.
  rewrite !bool_decide_eq_true_2 by done. cbn [andb].
  rewrite Hresult, Hmatched. unfold mbind, State_bind.
  rewrite !(save_to_history_user _ _ _ _ _ _ username) by done.
  split.
  - pose proof (append_file
                  (mk_call now username "sentiment_analysis" text result)
                  dir file Hfile) as Happend.
    unfold append in Happend.
    cbn [c_now c_username c_tool c_query c_result] in Happend.
    rewrite Happend. split; [done|].
    unfold held. rewrite lookup_insert_eq. cbn [default].
    apply last_last_entries. lia.
  - pose proof (append_file
                  (mk_call now username "job_matching" "Resume vs Job"
                     matched) dir file Hfile) as Happend.
    unfold append in Happend.
    cbn [c_now c_username c_tool c_query c_result] in Happend.
    rewrite Happend. split; [done|].
    unfold held. rewrite lookup_insert_eq. cbn [default].
    apply last_last_entries. lia.
Qed.


End tool_pages.

Lemma tool_pages_record_nothing_for_guests_witness :
  let tool := λ _ : string, Return "{'label': 'POSITIVE'}" in
  (sentiment_analysis_page (H := StandIn.interpreter) 5 new_session tool
     true "fine" ∅).2 = ∅ ∧
  (text_summarization_page (H := StandIn.interpreter) 5 new_session
     (λ _ _ _, Return "short") true "fine" 130 30 ∅).2 = ∅ ∧
  (fake_news_detection_page (H := StandIn.interpreter) 5 new_session tool
     true "fine" ∅).2 = ∅ ∧
  (job_matching_page (H := StandIn.interpreter) 5 new_session
     (λ _ _, Return "{}") true "fine" "job" ∅).2 = ∅.
Proof.
  intros tool.
  apply (tool_pages_record_nothing_for_guests (H := StandIn.interpreter)
           5 new_session ∅ tool
           (λ _ _ _, Return "short") (λ _ _, Return "{}") true "fine" "job"
           130 30).
  reflexivity.
Defined.

Lemma tool_pages_record_queries_of_users_witness :
  let session := logged_in "ann" "user" new_session in
  (let '(shown, dir') :=
     sentiment_analysis_page (H := StandIn.interpreter) 5 session
       (λ _, Return "POSITIVE") true "fine" ∅ in
   shown = Returns (Some (st_success "Analysis Complete!")) ∧
   last (HistoryManager.held dir' "ann.json")
   = Some {| HistoryEntry.timestamp := 5;
             HistoryEntry.tool := "sentiment_analysis";
             HistoryEntry.query := Py.str_prefix 200 "fine";
             HistoryEntry.result := Py.str_prefix 500 "POSITIVE" |}) ∧
  (let '(shown, dir') :=
     job_matching_page (H := StandIn.interpreter) 5 session
       (λ _ _, Return "0.9") true "cv" "job" ∅ in
   shown = Returns (Some (st_success "Match Calculated!")) ∧
   last (HistoryManager.held dir' "ann.json")
   = Some {| HistoryEntry.timestamp := 5;
             HistoryEntry.tool := "job_matching";
             HistoryEntry.query := "Resume vs Job";
             HistoryEntry.result := Py.str_prefix 500 "0.9" |}).
Proof.
  intros session.
  apply (tool_pages_record_queries_of_users (H := StandIn.interpreter)
           5 session ∅ "ann" "ann.json"
           (λ _, Return "POSITIVE") (λ _ _, Return "0.9")
           "fine" "cv" "job" "POSITIVE" "0.9"); done.
Defined.


(** ** Configuration *)

Section configuration.
Import Config.
Context `{Py.Interpreter}.

Lemma missing_false (value : option string) :
  missing value = false ↔ ∃ s, value = Some s ∧ s ≠ "".
Proof.
  destruct value as [s|]; simpl.
  - rewrite bool_decide_eq_false. split.
    + intros Hs. by exists s.
    + by intros (? & [= <-] & ?).
  - split; [done|]. by intros (? & ? & _).
Qed.

(** [validate] passes exactly when none of its three rules is broken. *)
Lemma validate_Return (cls : Config.t) :
  validate cls = Return ()
  ↔ missing (SECRET_KEY cls) = false ∧
    missing (ADMIN_PASSWORD cls) = false ∧
    bool_decide (APP_ENV cls = "production") && DEBUG cls = false.
Proof.
  unfold validate.
  destruct (missing (SECRET_KEY cls)), (missing (ADMIN_PASSWORD cls)),
    (bool_decide (APP_ENV cls = "production") && DEBUG cls);
    simpl; split; try done; by intros (? & ? & ?).
Qed.

(** A variable that is unset, or set to a text that [int] reads, is
    converted. *)
Lemma int_getenv_Return environ (key fallback : string) :
  is_Some (Py.int fallback) →
  (∃ n, int_getenv environ key fallback = Return n)
  ↔ ∀ s, environ !! key = Some s → is_Some (Py.int s).
Proof.
  intros Hfallback. unfold int_getenv, getenv.
  destruct (environ !! key) as [s|] eqn:Hkey; simpl.
  - destruct (Py.int s) as [n|] eqn:Hint; split.
    + intros _ s' [= <-]. by rewrite Hint.
    + intros _. by exists n.
    + by intros [n ?].
    + intros Hall. destruct (Hall s eq_refl) as [n Hn]. congruence.
  - destruct Hfallback as [n ->]. split; [done|]. intros _. by exists n.
Qed.

(** X26: what importing [config.py] asks of the environment, given that
    [int] reads the seven texts the class body falls back on.  The
    import passes, the class body and then [validate], exactly when each
    of PORT, MAX_UPLOAD_SIZE, CACHE_TTL, MAX_BATCH_SIZE, GUEST_RATE_LIMIT,
    USER_RATE_LIMIT and PRO_RATE_LIMIT is unset or set to a text that
    [int] reads, SECRET_KEY and ADMIN_PASSWORD are set to non-empty
    strings (an empty value counts as missing), and it is not the case
    that APP_ENV is "production" while DEBUG reads "true" in some letter
    case; an unset APP_ENV is development and any other value of DEBUG
    is off. *)
Theorem validate_accepts_exactly_complete_environments
    (environ : gmap string string) :
  Forall (λ setting, is_Some (Py.int setting.2)) integer_settings →
  on_import environ = Return ()
  ↔ Forall (λ setting,
              ∀ s, environ !! setting.1 = Some s → is_Some (Py.int s))
      integer_settings ∧
    (∃ s, environ !! "SECRET_KEY" = Some s ∧ s ≠ "") ∧
    (∃ s, environ !! "ADMIN_PASSWORD" = Some s ∧ s ≠ "") ∧
    ¬ (environ !! "APP_ENV" = Some "production" ∧
       ∃ d, environ !! "DEBUG" = Some d ∧ lower d = "true").
Proof.
  unfold integer_settings. rewrite !Forall_cons, !Forall_nil. cbn [fst snd].
  intros (Hport & Hupload & Hcache & Hbatch & Hguest & Huser & Hpro & _).
  rewrite <-!missing_false.
  rewrite <-(int_getenv_Return environ "PORT" "8501") by done.
  rewrite <-(int_getenv_Return environ "MAX_UPLOAD_SIZE" "10") by done.
  rewrite <-(int_getenv_Return environ "CACHE_TTL" "300") by done.
  rewrite <-(int_getenv_Return environ "MAX_BATCH_SIZE" "100") by done.
  rewrite <-(int_getenv_Return environ "GUEST_RATE_LIMIT" "10") by done.
  rewrite <-(int_getenv_Return environ "USER_RATE_LIMIT" "100") by done.
  rewrite <-(int_getenv_Return environ "PRO_RATE_LIMIT" "1000") by done.
  assert (bool_decide (getenv environ "APP_ENV" "development" = "production")
          && bool_decide (lower (getenv environ "DEBUG" "false") = "true")
          = false
          ↔ ¬ (environ !! "APP_ENV" = Some "production" ∧
               ∃ d, environ !! "DEBUG" = Some d ∧ lower d = "true"))
    as Hdebug.
  { rewrite andb_false_iff, !bool_decide_eq_false. unfold getenv.
    destruct (environ !! "APP_ENV") as [env|],
      (environ !! "DEBUG") as [d|]; simpl; split.
    - intros [Henv|Hd] [[= ->] (? & [= <-] & ?)]; done.
    - intros Hnot.
      destruct (decide (env = "production")) as [->|]; [|by left].
      right. intros Hd. apply Hnot. split; [done|]. by exists d.
    - by intros _ [_ (? & ? & _)].
    - intros _. by right.
    - by intros _ [? _].
    - intros _. by left.
    - by intros _ [? _].
    - intros _. by left. }
  rewrite <-Hdebug. clear Hdebug.
  unfold on_import, class_body.
  destruct (int_getenv environ "PORT" "8501") as [port|e];
    cbn [mbind raised_or_bind];
    [|split; [done|by intros (([? ?] & _) & _)]].
  destruct (int_getenv environ "MAX_UPLOAD_SIZE" "10") as [upload|e];
    cbn [mbind raised_or_bind];
    [|split; [done|by intros ((_ & [? ?] & _) & _)]].
  destruct (int_getenv environ "CACHE_TTL" "300") as [cache|e];
    cbn [mbind raised_or_bind];
    [|split; [done|by intros ((_ & _ & [? ?] & _) & _)]].
  destruct (int_getenv environ "MAX_BATCH_SIZE" "100") as [batch|e];
    cbn [mbind raised_or_bind];
    [|split; [done|by intros ((_ & _ & _ & [? ?] & _) & _)]].
  destruct (int_getenv environ "GUEST_RATE_LIMIT" "10") as [guest|e];
    cbn [mbind raised_or_bind];
    [|split; [done|by intros ((_ & _ & _ & _ & [? ?] & _) & _)]].
  destruct (int_getenv environ "USER_RATE_LIMIT" "100") as [user|e];
    cbn [mbind raised_or_bind];
    [|split; [done|by intros ((_ & _ & _ & _ & _ & [? ?] & _) & _)]].
  destruct (int_getenv environ "PRO_RATE_LIMIT" "1000") as [pro|e];
    cbn [mbind raised_or_bind];
    [|split; [done|by intros ((_ & _ & _ & _ & _ & _ & [? ?] & _) & _)]].
  cbn [mbind raised_or_bind mret raised_or_ret].
  rewrite validate_Return.
  cbn [SECRET_KEY ADMIN_PASSWORD APP_ENV DEBUG].
  split.
  - intros (Hsecret & Hadmin & Hflag).
    split_and!; try done; by eexists.
  - by intros (_ & Hsecret & Hadmin & Hflag).
Qed.

(** X27: the error names every rule that is broken, and no other.  When
    [validate] raises, its message starts with "Configuration errors: ",
    and each of the three complaints occurs in it exactly when its rule
    is broken. *)
Theorem validate_names_the_broken_rules (cls : Config.t) (e : string) :
  validate cls = Raise e →
  String.prefix "Configuration errors: " e = true ∧
  (contains "SECRET_KEY is required" e = missing (SECRET_KEY cls)) ∧
  (contains "ADMIN_PASSWORD is required" e = missing (ADMIN_PASSWORD cls)) ∧
  (contains "DEBUG should be false in production" e
   = bool_decide (APP_ENV cls = "production") && DEBUG cls).
Proof.
  unfold validate.
  destruct (missing (SECRET_KEY cls)), (missing (ADMIN_PASSWORD cls)),
    (bool_decide (APP_ENV cls = "production") && DEBUG cls);
    simpl; intros [= <-]; by vm_compute.
Qed.

End configuration.

Lemma validate_names_the_broken_rules_witness :
  let cls :=
    {| Config.APP_ENV := "production";
       Config.DEBUG := true;
       Config.SECRET_KEY := None;
       Config.ADMIN_PASSWORD := None;
       Config.PORT := 8501;
       Config.MAX_UPLOAD_SIZE := 10;
       Config.CACHE_TTL := 300;
       Config.MAX_BATCH_SIZE := 100;
       Config.GUEST_RATE_LIMIT := 10;
       Config.USER_RATE_LIMIT := 100;
       Config.PRO_RATE_LIMIT := 1000 |} in
  let e :=
    "Configuration errors: SECRET_KEY is required, ADMIN_PASSWORD is required, DEBUG should be false in production" in
  Config.class_body (H := StandIn.interpreter)
    {[ "APP_ENV" := "production"; "DEBUG" := "True" ]} = Return cls ∧
  String.prefix "Configuration errors: " e = true ∧
  (contains "SECRET_KEY is required" e
   = Config.missing (Config.SECRET_KEY cls)) ∧
  (contains "ADMIN_PASSWORD is required" e
   = Config.missing (Config.ADMIN_PASSWORD cls)) ∧
  (contains "DEBUG should be false in production" e
   = bool_decide (Config.APP_ENV cls = "production") && Config.DEBUG cls).
Proof.
  intros cls e. split; [reflexivity|].
  apply (validate_names_the_broken_rules cls e).
  reflexivity.
Defined.

Lemma validate_accepts_exactly_complete_environments_witness :
  let environ : gmap string string :=
    {[ "SECRET_KEY" := "s3cret"; "ADMIN_PASSWORD" := "correct horse";
       "PORT" := "8080" ]} in
  Config.on_import (H := StandIn.interpreter) environ = Return () ∧
  Config.on_import (H := StandIn.interpreter) (<["PORT" := "abc"]> environ)
  = Raise "invalid literal for int() with base 10: 'abc'".
Proof.
  intros environ. split; [|reflexivity].
  apply (validate_accepts_exactly_complete_environments
           (H := StandIn.interpreter) environ).
  - repeat constructor; by eexists.
  - split_and!.
    + repeat constructor; simpl; intros s Hs; vm_compute in Hs;
        try discriminate. injection Hs as <-. by eexists.
    + by exists "s3cret".
    + by exists "correct horse".
    + intros [Henv _]. vm_compute in Henv. discriminate.
Defined.

(** ** The recommendation of the job matcher *)

Section recommendation.

Lemma SFleb_trans (a b c : spec_float) :
  SFleb a b = true → SFleb b c = true → SFleb a c = true.
Proof.
  unfold SFleb, SFcompare.
  destruct a as [sa|sa| |sa ma ea], b as [sb|sb| |sb mb eb],
    c as [sc|sc| |sc mc ec];
    repeat match goal with s : bool |- _ => destruct s end;
    try done.
  all: change (PosDef.Pos.compare_cont Eq) with Pos.compare.
  all: destruct (Z.compare_spec ea eb), (Z.compare_spec eb ec),
         (Z.compare_spec ea ec); try done; try lia.
  all: subst.
  all: destruct (Pos.compare_spec ma mb), (Pos.compare_spec mb mc),
         (Pos.compare_spec ma mc); simpl; try done; try lia.
Qed.

Lemma float_leb_trans (x y z : float) :
  (x <=? y)%float = true → (y <=? z)%float = true → (x <=? z)%float = true.
Proof. rewrite !leb_spec. apply SFleb_trans. Qed.

(** Runs through the comparisons of [get_match_recommendation]. *)
Ltac thresholds :=
  unfold get_match_recommendation;
  repeat match goal with
         | |- context [if (?c <=? ?s)%float then _ else _] =>
             destruct (c <=? s)%float eqn:?
         end.

(** A score at a threshold or above is above the lower thresholds. *)
Ltac lower_threshold :=
  match goal with
  | Hlow : (?c <=? ?y)%float = false,
    Hhigh : (?d <=? ?x)%float = true,
    Hle : (?x <=? ?y)%float = true |- _ =>
      let Hcd := fresh in
      assert ((c <=? d)%float = true) as Hcd by reflexivity;
      assert ((c <=? y)%float = true)
        by exact (float_leb_trans c x y
                    (float_leb_trans c d x Hcd Hhigh) Hle);
      congruence
  end.

(** The same for one score. *)
Ltac lower_threshold_of score :=
  match goal with
  | Hlow : (?c <=? score)%float = false,
    Hhigh : (?d <=? score)%float = true |- _ =>
      let Hcd := fresh in
      assert ((c <=? d)%float = true) as Hcd by reflexivity;
      assert ((c <=? score)%float = true)
        by exact (float_leb_trans c d score Hcd Hhigh);
      congruence
  end.

(** X28: a better score never gets a weaker recommendation.  The
    recommendation is one of the five labels, and when one score is at
    most another, its label is not stronger than the label of the other.
    A score that is not a number gets "Weak Match". *)
#[warnings="-inexact-float"]
Theorem recommendation_is_monotone (score score' : float) :
  (score <=? score')%float = true →
  (strength (get_match_recommendation score)
   ≤ strength (get_match_recommendation score'))%nat ∧
  get_match_recommendation score
  ∈ ["Excellent Match"; "Strong Match"; "Good Match"; "Fair Match";
     "Weak Match"] ∧
  get_match_recommendation nan = "Weak Match".
Proof.
  intros Hle. split_and!.
  - thresholds; try (vm_compute; lia); lower_threshold.
  - thresholds; set_solver.
  - reflexivity.
Qed.

#[warnings="-inexact-float"]
Lemma recommendation_is_monotone_witness :
  (strength (get_match_recommendation 0.5)
   ≤ strength (get_match_recommendation 0.875))%nat ∧
  get_match_recommendation 0.5
  ∈ ["Excellent Match"; "Strong Match"; "Good Match"; "Fair Match";
     "Weak Match"] ∧
  get_match_recommendation nan = "Weak Match".
Proof.
  apply (recommendation_is_monotone 0.5 0.875). reflexivity.
Defined.

(** X29: green from 0.8 on.  [job_matching_page] shows the
    recommendation in green exactly when the score is at least 0.8, and
    in orange otherwise, also for a score that is not a number. *)
#[warnings="-inexact-float"]
Theorem recommendation_is_green_from_08 (score : float) :
  recommendation_color (get_match_recommendation score)
  = if (0.8 <=? score)%float then "green" else "orange".
Proof.
  thresholds; try reflexivity; lower_threshold_of score.
Qed.

End recommendation.

Lemma update_user_keeps_the_usernames_witness :
  let updates :=
    {| Updates.password := None; Updates.email := None;
       Updates.tier := Some "pro"; Updates.created_at := None;
       Updates.api_key := None |} in
  let '(updated, self') := update_user "ann" updates ann_registered in
  updated
  = bool_decide (is_Some (UserManager.users ann_registered !! "ann")) ∧
  dom (UserManager.users self') = dom (UserManager.users ann_registered) ∧
  (∀ username', username' ≠ "ann" →
                UserManager.users self' !! username'
                = UserManager.users ann_registered !! username') ∧
  (updated = false → self' = ann_registered) ∧
  (updated = true →
   UserManager.users_file self' = Some (UserManager.users self')).
Proof.
  intros updates.
  exact (update_user_keeps_the_usernames "ann" updates ann_registered).
Defined.
